(** * sglogger: a shallow embedding of the logging facade

    The Go package has three parts, embedded here in the same order:
    the fields handler (map merge and context extraction), the console
    provider ([fmtProvider]) and the logger that fans a record out to
    its providers.

    - Go maps are reference values, so a [Fields] is an address into a
      store of maps (or nil); [make], map literals and [maps.Copy] act
      on that store.  Console output, the wall clock and the order in
      which the runtime walks a map are part of the same machine state.
    - A method called through an interface ([LoggerProvider],
      [FieldsHandler]) is a function from machine to result and machine:
      whatever the implementation does, the call returns.  An
      implementation that panics is not described; the logger recovers
      no panic, so such a call would end the logger method by that
      panic.  Every statement about a dispatch is about implementations
      whose calls return.
    - A logger method runs in a process that also keeps the list of
      provider calls made and the read-lock count, and it ends by
      returning, by panicking or by exiting the process. *)

From Stdlib Require Import ZArith String Ascii List Lia DecimalString.
From stdpp Require Import gmap strings list fin_maps.

Local Open Scope string_scope.

(** ** Values, levels, contexts *)

(** A value stored behind [interface{}].  The code only looks at whether
    the dynamic type is [string]; every other dynamic type is rendered
    with the [%v] verb, so a value of another type is remembered by that
    rendering. *)
Inductive Value :=
| VString (s : string)
| VInt (z : Z)
| VBool (b : bool)
| VOther (repr : string).

#[global] Instance Value_eq_dec : EqDecision Value.
Proof. solve_decision. Defined.

(** [type Level int] with the [iota] constants of interfaces.go. *)
Definition Level := Z.
Definition LevelDebug : Level := 0%Z.
Definition LevelInfo : Level := 1%Z.
Definition LevelWarn : Level := 2%Z.
Definition LevelError : Level := 3%Z.
Definition LevelFatal : Level := 4%Z.

Definition severities : list Level :=
  [LevelDebug; LevelInfo; LevelWarn; LevelError; LevelFatal].

(** [context.Context]: nil, or a value store.  Keys are named. *)
Definition Context := option (gmap string Value).

Definition ctx_Value (c : gmap string Value) (key : string) : option Value :=
  c !! key.

(** [error]: nil, or a value whose [Error()] is the given text. *)
Definition error := option string.

(** [Fields]: nil, or the address of a map in the store. *)
Definition Fields := option nat.

(** [LoggerConfig] is an empty struct; [ProviderConfig] embeds it. *)
Record LoggerConfig := mkLoggerConfig {}.
Record ProviderConfig := mkProviderConfig {
  cfgLoggerConfig : LoggerConfig;
  cfgLevel : Level }.

(** ** Wall clock *)

Record Time := mkTime {
  year : nat; month : nat; day : nat;
  hour : nat; minute : nat; second : nat }.

Definition dec (n : nat) : string := NilZero.string_of_uint (Nat.to_uint n).

Definition pad2 (n : nat) : string :=
  if (n <? 10)%nat then "0" +:+ dec n else dec n.

Definition pad4 (n : nat) : string :=
  if (n <? 10)%nat then "000" +:+ dec n
  else if (n <? 100)%nat then "00" +:+ dec n
  else if (n <? 1000)%nat then "0" +:+ dec n
  else dec n.

(** [t.Format("2006-01-02 15:04:05")] *)
Definition Format_dash (t : Time) : string :=
  pad4 (year t) +:+ "-" +:+ pad2 (month t) +:+ "-" +:+ pad2 (day t) +:+ " "
  +:+ pad2 (hour t) +:+ ":" +:+ pad2 (minute t) +:+ ":" +:+ pad2 (second t).

(** The prefix the standard [log] package writes with its default flags. *)
Definition Format_slash (t : Time) : string :=
  pad4 (year t) +:+ "/" +:+ pad2 (month t) +:+ "/" +:+ pad2 (day t) +:+ " "
  +:+ pad2 (hour t) +:+ ":" +:+ pad2 (minute t) +:+ ":" +:+ pad2 (second t).

(** ** Machine state *)

Record Machine {Ext : Type} := mkMachine {
  heap : list (gmap string Value);   (* every Go map allocated so far *)
  stdout : list string;              (* what fmt.Printf wrote, oldest first *)
  stderr : list string;              (* what the log package wrote *)
  now : Time;                        (* time.Now() *)
  seeds : list nat;                  (* runtime's choices of map walk order *)
  ext : Ext }.                       (* whatever else providers own *)
Arguments Machine : clear implicits.
Arguments mkMachine {Ext}.

Section machine.
Context {Ext : Type}.
Implicit Types (m : Machine Ext) (f : Fields) (p : nat).

Definition set_heap (h : list (gmap string Value)) m : Machine Ext :=
  mkMachine h (stdout m) (stderr m) (now m) (seeds m) (ext m).
Definition set_stdout (o : list string) m : Machine Ext :=
  mkMachine (heap m) o (stderr m) (now m) (seeds m) (ext m).
Definition set_stderr (o : list string) m : Machine Ext :=
  mkMachine (heap m) (stdout m) o (now m) (seeds m) (ext m).
Definition set_seeds (s : list nat) m : Machine Ext :=
  mkMachine (heap m) (stdout m) (stderr m) (now m) s (ext m).

(** The entries behind a [Fields] value; a nil map reads as empty. *)
Definition deref (h : list (gmap string Value)) f : gmap string Value :=
  match f with
  | None => ∅
  | Some p => default ∅ (h !! p)
  end.

(** A [Fields] value of a running program is nil or points into the store. *)
Definition valid (h : list (gmap string Value)) f : Prop :=
  match f with
  | None => True
  | Some p => (p < length h)%nat
  end.

(** [make(Fields)]: a fresh, empty, non-nil map. *)
Definition make_Fields m : nat * Machine Ext :=
  (length (heap m), set_heap (heap m ++ [∅]) m).

(** [dst[k] = v] on a non-nil map. *)
Definition mapassign p (k : string) (v : Value) m : Machine Ext :=
  set_heap (alter (insert k v) p (heap m)) m.

(** The runtime walks a map in an order of its own choosing: the head of
    [seeds] picks one of the permutations of the entries. *)
Definition range_order {A} (seed : nat) (l : list A) : list A :=
  default l (permutations l !! seed).

Definition range_map f m : list (string * Value) * Machine Ext :=
  (range_order (hd 0%nat (seeds m)) (map_to_list (deref (heap m) f)),
   set_seeds (tl (seeds m)) m).

(** [maps.Copy(dst, src)]: [for k, v := range src { dst[k] = v }]. *)
Definition maps_Copy p f m : Machine Ext :=
  let '(kvs, m1) := range_map f m in
  foldl (fun acc kv => mapassign p kv.1 kv.2 acc) m1 kvs.

(** The literal [Fields{k: v}]. *)
Definition Fields_lit1 (k : string) (v : Value) m : Fields * Machine Ext :=
  let '(p, m1) := make_Fields m in
  (Some p, mapassign p k v m1).

End machine.

(** ** Fields handler (src/unnamed/part_000) *)

Module fieldsHandler.
Section fieldsHandler.
Context {Ext : Type}.
Implicit Types (m : Machine Ext).

(** The well-known context key is declared outside the files at hand. *)
Variable TraceIDKey : string.

Definition ExtractFieldsFromContext (ctx : Context) (fields : Fields) m
  : Fields * Machine Ext :=
  match ctx with
  | None => (fields, m)
  | Some c =>
      let '(result, m1) := make_Fields m in
      let m2 := maps_Copy result fields m1 in
      match ctx_Value c TraceIDKey with
      | Some (VString traceID) => (Some result, mapassign result "trace_id" (VString traceID) m2)
      | _ => (Some result, m2)
      end
  end.

Definition MergeFields (fields1 fields2 : Fields) m : Fields * Machine Ext :=
  let '(result, m1) := make_Fields m in
  let m2 := maps_Copy result fields1 m1 in
  let m3 := maps_Copy result fields2 m2 in
  (Some result, m3).

End fieldsHandler.
End fieldsHandler.

(** ** Console provider (src/default_provider.go) *)

Definition dquote : ascii := ascii_of_nat 34.
Definition newline : ascii := ascii_of_nat 10.

Definition hex_digit (n : nat) : ascii :=
  default "0"%char (list_ascii_of_string "0123456789abcdef" !! n).

(** *** [strconv.Quote], which the [%q] verb applies to a string

    The library walks the string rune by rune: a byte that does not start
    a well-formed UTF-8 sequence is written as [\xNN]; a rune that is the
    quote or the backslash gets a backslash; a printable rune is copied;
    the others are written as [\a] ... [\v], [\xNN], [\uNNNN] or
    [\UNNNNNNNN].  Shifts and masks of the library are written as
    divisions and remainders by powers of two. *)

(** [strconv.IsPrint] decides Latin-1 by comparison and everything above
    by tables of the library; the tables are taken as given. *)
Class PrintTables := { isPrintTable : Z -> bool }.

Definition byte_of (c : ascii) : Z := Z.of_nat (nat_of_ascii c).
Definition char_of (b : Z) : ascii := ascii_of_nat (Z.to_nat b).
Definition lowerhex (n : Z) : ascii := hex_digit (Z.to_nat n).

Definition RuneError : Z := 65533.
Definition MaxRune : Z := 1114111.

Definition between (lo hi x : Z) : bool := ((lo <=? x) && (x <=? hi))%Z.

(** [utf8.first] and [utf8.acceptRanges]: for a leading byte, the length
    of the sequence and the range its second byte must lie in. *)
Definition first_byte (s0 : Z) : option (nat * Z * Z) :=
  if between 194 223 s0 then Some (2%nat, 128, 191)%Z
  else if (s0 =? 224)%Z then Some (3%nat, 160, 191)%Z
  else if between 225 236 s0 then Some (3%nat, 128, 191)%Z
  else if (s0 =? 237)%Z then Some (3%nat, 128, 159)%Z
  else if between 238 239 s0 then Some (3%nat, 128, 191)%Z
  else if (s0 =? 240)%Z then Some (4%nat, 144, 191)%Z
  else if between 241 243 s0 then Some (4%nat, 128, 191)%Z
  else if (s0 =? 244)%Z then Some (4%nat, 128, 143)%Z
  else None.

(** [utf8.DecodeRuneInString]: the first rune and its width in bytes;
    [(RuneError, 1)] for a byte that starts no well-formed sequence. *)
Definition DecodeRuneInString (s : string) : Z * nat :=
  match s with
  | EmptyString => (RuneError, 0%nat)
  | String c0 rest =>
      let s0 := byte_of c0 in
      if (s0 <? 128)%Z then (s0, 1%nat)
      else
        match first_byte s0, rest with
        | Some (sz, lo, hi), String c1 rest1 =>
            let s1 := byte_of c1 in
            if negb (between lo hi s1) then (RuneError, 1%nat)
            else if (sz <=? 2)%nat then ((s0 mod 32) * 64 + s1 mod 64, 2%nat)%Z
            else
              match rest1 with
              | String c2 rest2 =>
                  let s2 := byte_of c2 in
                  if negb (between 128 191 s2) then (RuneError, 1%nat)
                  else if (sz <=? 3)%nat
                  then ((s0 mod 16) * 4096 + (s1 mod 64) * 64 + s2 mod 64, 3%nat)%Z
                  else
                    match rest2 with
                    | String c3 _ =>
                        let s3 := byte_of c3 in
                        if negb (between 128 191 s3) then (RuneError, 1%nat)
                        else ((s0 mod 8) * 262144 + (s1 mod 64) * 4096
                              + (s2 mod 64) * 64 + s3 mod 64, 4%nat)%Z
                    | EmptyString => (RuneError, 1%nat)
                    end
              | EmptyString => (RuneError, 1%nat)
              end
        | _, _ => (RuneError, 1%nat)
        end
  end.

(** [utf8.ValidRune]: in range and no surrogate half. *)
Definition ValidRune (r : Z) : bool :=
  between 0 55295 r || between 57344 MaxRune r.

Definition encode3 (r : Z) : string :=
  String (char_of (224 + r / 4096))
    (String (char_of (128 + (r / 64) mod 64)) (String (char_of (128 + r mod 64)) "")).

(** [utf8.AppendRune]: the UTF-8 bytes of a rune ([RuneError]'s for a
    rune that is not valid). *)
Definition AppendRune (r : Z) : string :=
  if between 0 127 r then String (char_of r) ""
  else if between 0 2047 r
  then String (char_of (192 + r / 64)) (String (char_of (128 + r mod 64)) "")
  else if negb (ValidRune r) then encode3 RuneError
  else if (r <=? 65535)%Z then encode3 r
  else String (char_of (240 + r / 262144))
         (String (char_of (128 + (r / 4096) mod 64))
            (String (char_of (128 + (r / 64) mod 64))
               (String (char_of (128 + r mod 64)) ""))).

Definition hex4 (r : Z) : string :=
  String (lowerhex ((r / 4096) mod 16)) (String (lowerhex ((r / 256) mod 16))
    (String (lowerhex ((r / 16) mod 16)) (String (lowerhex (r mod 16)) ""))).

(** [s[n:]] *)
Fixpoint string_drop (n : nat) (s : string) : string :=
  match n, s with
  | S n', String _ rest => string_drop n' rest
  | _, _ => s
  end.

Section quote.
Context {tables : PrintTables}.

Definition IsPrint (r : Z) : bool :=
  if (r <=? 255)%Z
  then between 32 126 r || (between 161 255 r && negb (r =? 173)%Z)
  else isPrintTable r.

(** [strconv.appendEscapedRune] for the double quote, neither ASCII-only
    nor graphic-only. *)
Definition appendEscapedRune (r : Z) : string :=
  if ((r =? 34) || (r =? 92))%Z then String "\" (String (char_of r) "")
  else if IsPrint r then AppendRune r
  else if (r =? 7)%Z then "\a"
  else if (r =? 8)%Z then "\b"
  else if (r =? 12)%Z then "\f"
  else if (r =? 10)%Z then "\n"
  else if (r =? 13)%Z then "\r"
  else if (r =? 9)%Z then "\t"
  else if (r =? 11)%Z then "\v"
  else if ((r <? 32) || (r =? 127))%Z
  then String "\" (String "x" (String (lowerhex ((r / 16) mod 16))
                                   (String (lowerhex (r mod 16)) "")))
  else if negb (ValidRune r) then "\u" +:+ hex4 RuneError
  else if (r <? 65536)%Z then "\u" +:+ hex4 r
  else "\U" +:+ hex4 (r / 65536) +:+ hex4 (r mod 65536).

(** The loop of [strconv.appendQuotedWith]:
    [for width := 0; len(s) > 0; s = s[width:]].  Every turn takes at
    least one byte, so [len(s)] turns are enough. *)
Fixpoint quote_loop (fuel : nat) (s : string) : string :=
  match fuel, s with
  | S fuel', String c0 _ =>
      let '(r, width) :=
        if (byte_of c0 <? 128)%Z then (byte_of c0, 1%nat)
        else DecodeRuneInString s in
      if ((width =? 1)%nat && (r =? RuneError)%Z)%bool
      then String "\" (String "x" (String (lowerhex (byte_of c0 / 16))
                                      (String (lowerhex (byte_of c0 mod 16)) "")))
           +:+ quote_loop fuel' (string_drop width s)
      else appendEscapedRune r +:+ quote_loop fuel' (string_drop width s)
  | _, _ => ""
  end.

(** What stands between the quotes. *)
Definition escape (s : string) : string := quote_loop (String.length s) s.

Definition strconv_Quote (s : string) : string :=
  String dquote (escape s +:+ String dquote "").

End quote.

(** The [%v] verb on a value. *)
Definition fmt_v (v : Value) : string :=
  match v with
  | VString s => s
  | VInt z => NilZero.string_of_int (Z.to_int z)
  | VBool true => "true"
  | VBool false => "false"
  | VOther repr => repr
  end.

Fixpoint strings_Join (elems : list string) (sep : string) : string :=
  match elems with
  | [] => ""
  | [e] => e
  | e :: rest => e +:+ sep +:+ strings_Join rest sep
  end.

Module fmtProvider.
Section fmtProvider.
Context {Ext : Type} {tables : PrintTables}.
Implicit Types (m : Machine Ext) (p : ProviderConfig).

(** One iteration of the loop of [serializeFields]: the type switch. *)
Definition pair_text (kv : string * Value) : string :=
  match kv.2 with
  | VString val => kv.1 +:+ "=" +:+ strconv_Quote val
  | val => kv.1 +:+ "=" +:+ fmt_v val
  end.

Definition serializeFields (fields : Fields) m : string * Machine Ext :=
  if decide (size (deref (heap m) fields) = 0)%nat then ("", m)
  else
    let '(kvs, m1) := range_map fields m in
    let pairs := foldl (fun pairs kv => (pairs ++ [pair_text kv])%list) [] kvs in
    ("{" +:+ strings_Join pairs " " +:+ "}", m1).

(** The provider is its configuration ([p.config]). *)
Definition ShouldLog p (ctx : Context) (level : Level) : bool :=
  (cfgLevel p <=? level)%Z.

(** The [switch level] of [Write]; no case matches another level and
    [levelStr] keeps its zero value. *)
Definition levelStr (level : Level) : string :=
  if decide (level = LevelDebug) then "debug"
  else if decide (level = LevelInfo) then "info"
  else if decide (level = LevelWarn) then "warning"
  else if decide (level = LevelError) then "error"
  else if decide (level = LevelFatal) then "critical"
  else "".

(** [fmt.Printf] of an already formatted text. *)
Definition Printf (text : string) m : Machine Ext :=
  set_stdout (stdout m ++ [text])%list m.

Definition Write p (ctx : Context) (level : Level) (message : string)
    (fields : Fields) m : error * Machine Ext :=
  if negb (ShouldLog p ctx level) then (None, m)
  else
    let ts := Format_dash (now m) in
    let '(fs, m1) := serializeFields fields m in
    (None,
     Printf ("[" +:+ ts +:+ "] " +:+ levelStr level +:+ " " +:+ String dquote message
             +:+ String dquote " " +:+ fs +:+ String newline "") m1).

Definition Close p (ctx : Context) m : error * Machine Ext := (None, m).

End fmtProvider.
End fmtProvider.

(** ** Interfaces (src/interfaces.go, src/unnamed/part_000) *)

(** A method of an interface is a call that returns: it reads and
    changes the machine and hands back its result. *)
Record LoggerProvider {Ext : Type} := mkLoggerProvider {
  Write : Context -> Level -> string -> Fields -> Machine Ext -> error * Machine Ext;
  ShouldLog : Context -> Level -> Machine Ext -> bool * Machine Ext;
  Close : Context -> Machine Ext -> error * Machine Ext }.
Arguments LoggerProvider : clear implicits.
Arguments mkLoggerProvider {Ext}.

Record FieldsHandler {Ext : Type} := mkFieldsHandler {
  ExtractFieldsFromContext : Context -> Fields -> Machine Ext -> Fields * Machine Ext;
  MergeFields : Fields -> Fields -> Machine Ext -> Fields * Machine Ext }.
Arguments FieldsHandler : clear implicits.
Arguments mkFieldsHandler {Ext}.

Definition NewFieldsHandler {Ext} (TraceIDKey : string) : FieldsHandler Ext :=
  mkFieldsHandler (fieldsHandler.ExtractFieldsFromContext TraceIDKey)
                  fieldsHandler.MergeFields.

Definition NewFmtProvider {Ext} {tables : PrintTables} (config : ProviderConfig)
  : LoggerProvider Ext :=
  mkLoggerProvider (fmtProvider.Write config)
                   (fun ctx level m => (fmtProvider.ShouldLog config ctx level, m))
                   (fmtProvider.Close config).

(** ** Logger (src/unnamed/part_000) *)

(** A call the logger makes through the [LoggerProvider] interface: the
    position of the provider in the list, the arguments, the result. *)
Inductive Call :=
| CallShouldLog (i : nat) (ctx : Context) (level : Level) (ret : bool)
| CallWrite (i : nat) (ctx : Context) (level : Level) (message : string)
            (fields : Fields) (ret : error).

(** The process as the logger sees it: the machine, the provider calls
    made so far (oldest first) and the read-lock count of [logger.mu]. *)
Record Proc {Ext : Type} := mkProc {
  mach : Machine Ext;
  calls : list Call;
  readers : nat }.
Arguments Proc : clear implicits.
Arguments mkProc {Ext}.

(** How a call of a logger method ends. *)
Inductive Outcome {Ext : Type} (A : Type) :=
| Returned (a : A) (s : Proc Ext)
| Panicked (reason : string) (s : Proc Ext)
| Exited (code : Z) (s : Proc Ext).
Arguments Returned {Ext A}.
Arguments Panicked {Ext A}.
Arguments Exited {Ext A}.

Definition L (Ext A : Type) := Proc Ext -> Outcome (Ext:=Ext) A.

(** The process state a call ends in. *)
Definition final {Ext A} (o : Outcome (Ext:=Ext) A) : Proc Ext :=
  match o with
  | Returned _ s => s
  | Panicked _ s => s
  | Exited _ s => s
  end.

Definition ret {Ext A} (a : A) : L Ext A := fun s => Returned a s.

Definition bind {Ext A B} (c : L Ext A) (k : A -> L Ext B) : L Ext B :=
  fun s =>
    match c s with
    | Returned a s1 => k a s1
    | Panicked r s1 => Panicked r s1
    | Exited n s1 => Exited n s1
    end.

Notation "x <- c ;; k" := (bind c (fun x => k))
  (at level 100, c at next level, right associativity).
Notation "c ;;; k" := (bind c (fun _ => k))
  (at level 100, right associativity).

Definition panic {Ext A} (reason : string) : L Ext A := fun s => Panicked reason s.

(** Run a machine-level call inside the process. *)
Definition lift {Ext A} (f : Machine Ext -> A * Machine Ext) : L Ext A :=
  fun s => let '(a, m1) := f (mach s) in
           Returned a (mkProc m1 (calls s) (readers s)).

Definition record {Ext} (c : Call) : L Ext unit :=
  fun s => Returned tt (mkProc (mach s) (calls s ++ [c])%list (readers s)).

(** [defer d] around a body: [d] runs when the body returns or panics,
    not when the process exits. *)
Definition defer {Ext A} (d : L Ext unit) (body : L Ext A) : L Ext A :=
  fun s =>
    match body s with
    | Returned a s1 =>
        match d s1 with
        | Returned _ s2 => Returned a s2
        | Panicked r s2 => Panicked r s2
        | Exited n s2 => Exited n s2
        end
    | Panicked r s1 =>
        match d s1 with
        | Returned _ s2 => Panicked r s2
        | Panicked r2 s2 => Panicked r2 s2
        | Exited n s2 => Exited n s2
        end
    | Exited n s1 => Exited n s1
    end.

(** [l.mu.RLock()] and [l.mu.RUnlock()], seen from one goroutine: the
    count of read locks held.  Unlocking an unlocked mutex is a fatal
    error of the runtime; it ends the call like a panic. *)
Definition RLock {Ext} : L Ext unit :=
  fun s => Returned tt (mkProc (mach s) (calls s) (S (readers s))).

Definition RUnlock {Ext} : L Ext unit :=
  fun s =>
    match readers s with
    | O => Panicked "sync: RUnlock of unlocked RWMutex" s
    | S n => Returned tt (mkProc (mach s) (calls s) n)
    end.

(** [err.Error()]: a method call on a nil interface value panics. *)
Definition err_Error {Ext} (err : error) : L Ext string :=
  match err with
  | Some text => ret text
  | None => panic "runtime error: invalid memory address or nil pointer dereference"
  end.

Definition ends_with_newline (s : string) : bool :=
  match last (list_ascii_of_string s) with
  | Some c => if decide (c = newline) then true else false
  | None => false
  end.

(** The process with one more line on standard error. *)
Definition with_stderr_line {Ext} (line : string) (s : Proc Ext) : Proc Ext :=
  mkProc (set_stderr (stderr (mach s) ++ [line])%list (mach s)) (calls s) (readers s).

(** [log.Fatal(text)] with the standard logger as the [log] package sets
    it up: one line on standard error (date, time, the text, a newline
    unless the text ends in one), then [os.Exit(1)]. *)
Definition log_Fatal {Ext} (text : string) : L Ext unit :=
  fun s =>
    let line := Format_slash (now (mach s)) +:+ " " +:+ text
                +:+ (if ends_with_newline text then "" else String newline "") in
    Exited 1 (with_stderr_line line s).

(** The [%v] verb on an [error]. *)
Definition fmt_v_error (err : error) : string :=
  match err with
  | Some text => text
  | None => "<nil>"
  end.

Record logger {Ext : Type} := mkLogger {
  providers : list (LoggerProvider Ext);
  config : LoggerConfig;
  fieldsHandler : FieldsHandler Ext }.
Arguments logger : clear implicits.
Arguments mkLogger {Ext}.

Module Logger.
Section Logger.
Context {Ext : Type}.
(** [fmt.Sprintf], the host's formatting of a template and its arguments. *)
Variable Sprintf : string -> list Value -> string.
Implicit Types (l : logger Ext) (ctx : Context) (level : Level)
  (err : error) (fields : Fields) (format message : string) (args : list Value).

(** [for _, provider := range ps], with the position kept. *)
Fixpoint range_providers (i : nat) (ps : list (LoggerProvider Ext))
    (body : nat -> LoggerProvider Ext -> L Ext unit) : L Ext unit :=
  match ps with
  | [] => ret tt
  | provider :: rest => body i provider ;;; range_providers (S i) rest body
  end.

Definition call_ShouldLog (i : nat) (provider : LoggerProvider Ext) ctx level
  : L Ext bool :=
  ok <- lift (ShouldLog provider ctx level) ;;
  record (CallShouldLog i ctx level ok) ;;;
  ret ok.

Definition call_Write (i : nat) (provider : LoggerProvider Ext) ctx level
    message fields : L Ext error :=
  e <- lift (Write provider ctx level message fields) ;;
  record (CallWrite i ctx level message fields e) ;;;
  ret e.

Definition extractFieldsFromContext l ctx fields : L Ext Fields :=
  lift (ExtractFieldsFromContext (fieldsHandler l) ctx fields).

Definition mergeFields l (fields1 fields2 : Fields) : L Ext Fields :=
  lift (MergeFields (fieldsHandler l) fields1 fields2).

Definition writeLog l ctx level message fields : L Ext unit :=
  RLock ;;;
  defer RUnlock
    (allFields <- extractFieldsFromContext l ctx fields ;;
     range_providers 0 (providers l) (fun i provider =>
       ok <- call_ShouldLog i provider ctx level ;;
       if ok then call_Write i provider ctx level message allFields ;;; ret tt
       else ret tt)).

(** [Fields{"error": err.Error()}] *)
Definition error_fields err : L Ext Fields :=
  text <- err_Error err ;;
  lift (Fields_lit1 "error" (VString text)).

(** [log.Fatalf("%s: %v", message, err)] *)
Definition log_Fatalf_err message err : L Ext unit :=
  log_Fatal (message +:+ ": " +:+ fmt_v_error err).

Definition Debug l ctx format args : L Ext unit :=
  let message := Sprintf format args in
  writeLog l ctx LevelDebug message None.

Definition Info l ctx format args : L Ext unit :=
  let message := Sprintf format args in
  writeLog l ctx LevelInfo message None.

Definition Warning l ctx format args : L Ext unit :=
  let message := Sprintf format args in
  writeLog l ctx LevelWarn message None.

Definition Error l ctx format args : L Ext unit :=
  let message := Sprintf format args in
  writeLog l ctx LevelError message None.

Definition Fatal l ctx format args : L Ext unit :=
  let message := Sprintf format args in
  writeLog l ctx LevelFatal message None ;;;
  log_Fatal message.

Definition DebugErr l ctx err format args : L Ext unit :=
  let message := Sprintf format args in
  fields <- error_fields err ;;
  writeLog l ctx LevelDebug message fields.

Definition InfoErr l ctx err format args : L Ext unit :=
  let message := Sprintf format args in
  fields <- error_fields err ;;
  writeLog l ctx LevelInfo message fields.

Definition WarningErr l ctx err format args : L Ext unit :=
  let message := Sprintf format args in
  fields <- error_fields err ;;
  writeLog l ctx LevelWarn message fields.

Definition ErrorErr l ctx err format args : L Ext unit :=
  let message := Sprintf format args in
  fields <- error_fields err ;;
  writeLog l ctx LevelError message fields.

Definition FatalErr l ctx err format args : L Ext unit :=
  let message := Sprintf format args in
  fields <- error_fields err ;;
  writeLog l ctx LevelFatal message fields ;;;
  log_Fatalf_err message err.

Definition DebugWithFields l ctx fields format args : L Ext unit :=
  let message := Sprintf format args in
  writeLog l ctx LevelDebug message fields.

Definition InfoWithFields l ctx fields format args : L Ext unit :=
  let message := Sprintf format args in
  writeLog l ctx LevelInfo message fields.

Definition WarningWithFields l ctx fields format args : L Ext unit :=
  let message := Sprintf format args in
  writeLog l ctx LevelWarn message fields.

Definition ErrorWithFields l ctx fields format args : L Ext unit :=
  let message := Sprintf format args in
  writeLog l ctx LevelError message fields.

Definition FatalWithFields l ctx fields format args : L Ext unit :=
  let message := Sprintf format args in
  writeLog l ctx LevelFatal message fields ;;;
  log_Fatal message.

Definition DebugErrWithFields l ctx err fields format args : L Ext unit :=
  let message := Sprintf format args in
  overlay <- error_fields err ;;
  allFields <- mergeFields l fields overlay ;;
  writeLog l ctx LevelDebug message allFields.

Definition InfoErrWithFields l ctx err fields format args : L Ext unit :=
  let message := Sprintf format args in
  overlay <- error_fields err ;;
  allFields <- mergeFields l fields overlay ;;
  writeLog l ctx LevelInfo message allFields.

Definition WarningErrWithFields l ctx err fields format args : L Ext unit :=
  let message := Sprintf format args in
  overlay <- error_fields err ;;
  allFields <- mergeFields l fields overlay ;;
  writeLog l ctx LevelWarn message allFields.

Definition ErrorErrWithFields l ctx err fields format args : L Ext unit :=
  let message := Sprintf format args in
  overlay <- error_fields err ;;
  allFields <- mergeFields l fields overlay ;;
  writeLog l ctx LevelError message allFields.

Definition FatalErrWithFields l ctx err fields format args : L Ext unit :=
  let message := Sprintf format args in
  overlay <- error_fields err ;;
  allFields <- mergeFields l fields overlay ;;
  writeLog l ctx LevelFatal message allFields ;;;
  log_Fatalf_err message err.

End Logger.
End Logger.

Definition NewLoggerDefault {Ext} {tables : PrintTables} (config : ProviderConfig)
    (fieldsHandler : FieldsHandler Ext) : logger Ext :=
  mkLogger [NewFmtProvider config] (cfgLoggerConfig config) fieldsHandler.

Definition NewLogger {Ext} (config : LoggerConfig)
    (fieldsHandler : FieldsHandler Ext) (providers : list (LoggerProvider Ext))
  : logger Ext :=
  mkLogger providers config fieldsHandler.


(** ** The public surface (the [Logger] interface of src/interfaces.go)

    One constructor per method of the interface, so that a statement can
    range over every public call. *)
Inductive LoggerCall :=
| call_Debug (format : string) (args : list Value)
| call_Info (format : string) (args : list Value)
| call_Warning (format : string) (args : list Value)
| call_Error (format : string) (args : list Value)
| call_Fatal (format : string) (args : list Value)
| call_DebugErr (err : error) (format : string) (args : list Value)
| call_InfoErr (err : error) (format : string) (args : list Value)
| call_WarningErr (err : error) (format : string) (args : list Value)
| call_ErrorErr (err : error) (format : string) (args : list Value)
| call_FatalErr (err : error) (format : string) (args : list Value)
| call_DebugWithFields (fields : Fields) (format : string) (args : list Value)
| call_InfoWithFields (fields : Fields) (format : string) (args : list Value)
| call_WarningWithFields (fields : Fields) (format : string) (args : list Value)
| call_ErrorWithFields (fields : Fields) (format : string) (args : list Value)
| call_FatalWithFields (fields : Fields) (format : string) (args : list Value)
| call_DebugErrWithFields (err : error) (fields : Fields) (format : string) (args : list Value)
| call_InfoErrWithFields (err : error) (fields : Fields) (format : string) (args : list Value)
| call_WarningErrWithFields (err : error) (fields : Fields) (format : string) (args : list Value)
| call_ErrorErrWithFields (err : error) (fields : Fields) (format : string) (args : list Value)
| call_FatalErrWithFields (err : error) (fields : Fields) (format : string) (args : list Value).

Definition call_level (c : LoggerCall) : Level :=
  match c with
  | call_Debug format args => LevelDebug
  | call_Info format args => LevelInfo
  | call_Warning format args => LevelWarn
  | call_Error format args => LevelError
  | call_Fatal format args => LevelFatal
  | call_DebugErr err format args => LevelDebug
  | call_InfoErr err format args => LevelInfo
  | call_WarningErr err format args => LevelWarn
  | call_ErrorErr err format args => LevelError
  | call_FatalErr err format args => LevelFatal
  | call_DebugWithFields fields format args => LevelDebug
  | call_InfoWithFields fields format args => LevelInfo
  | call_WarningWithFields fields format args => LevelWarn
  | call_ErrorWithFields fields format args => LevelError
  | call_FatalWithFields fields format args => LevelFatal
  | call_DebugErrWithFields err fields format args => LevelDebug
  | call_InfoErrWithFields err fields format args => LevelInfo
  | call_WarningErrWithFields err fields format args => LevelWarn
  | call_ErrorErrWithFields err fields format args => LevelError
  | call_FatalErrWithFields err fields format args => LevelFatal
  end.

Definition call_fatal (c : LoggerCall) : bool :=
  match c with
  | call_Debug format args => false
  | call_Info format args => false
  | call_Warning format args => false
  | call_Error format args => false
  | call_Fatal format args => true
  | call_DebugErr err format args => false
  | call_InfoErr err format args => false
  | call_WarningErr err format args => false
  | call_ErrorErr err format args => false
  | call_FatalErr err format args => true
  | call_DebugWithFields fields format args => false
  | call_InfoWithFields fields format args => false
  | call_WarningWithFields fields format args => false
  | call_ErrorWithFields fields format args => false
  | call_FatalWithFields fields format args => true
  | call_DebugErrWithFields err fields format args => false
  | call_InfoErrWithFields err fields format args => false
  | call_WarningErrWithFields err fields format args => false
  | call_ErrorErrWithFields err fields format args => false
  | call_FatalErrWithFields err fields format args => true
  end.

Definition call_err (c : LoggerCall) : option error :=
  match c with
  | call_Debug format args => None
  | call_Info format args => None
  | call_Warning format args => None
  | call_Error format args => None
  | call_Fatal format args => None
  | call_DebugErr err format args => Some err
  | call_InfoErr err format args => Some err
  | call_WarningErr err format args => Some err
  | call_ErrorErr err format args => Some err
  | call_FatalErr err format args => Some err
  | call_DebugWithFields fields format args => None
  | call_InfoWithFields fields format args => None
  | call_WarningWithFields fields format args => None
  | call_ErrorWithFields fields format args => None
  | call_FatalWithFields fields format args => None
  | call_DebugErrWithFields err fields format args => Some err
  | call_InfoErrWithFields err fields format args => Some err
  | call_WarningErrWithFields err fields format args => Some err
  | call_ErrorErrWithFields err fields format args => Some err
  | call_FatalErrWithFields err fields format args => Some err
  end.

Definition call_fields (c : LoggerCall) : option Fields :=
  match c with
  | call_Debug format args => None
  | call_Info format args => None
  | call_Warning format args => None
  | call_Error format args => None
  | call_Fatal format args => None
  | call_DebugErr err format args => None
  | call_InfoErr err format args => None
  | call_WarningErr err format args => None
  | call_ErrorErr err format args => None
  | call_FatalErr err format args => None
  | call_DebugWithFields fields format args => Some fields
  | call_InfoWithFields fields format args => Some fields
  | call_WarningWithFields fields format args => Some fields
  | call_ErrorWithFields fields format args => Some fields
  | call_FatalWithFields fields format args => Some fields
  | call_DebugErrWithFields err fields format args => Some fields
  | call_InfoErrWithFields err fields format args => Some fields
  | call_WarningErrWithFields err fields format args => Some fields
  | call_ErrorErrWithFields err fields format args => Some fields
  | call_FatalErrWithFields err fields format args => Some fields
  end.

Definition call_template (c : LoggerCall) : string * list Value :=
  match c with
  | call_Debug format args => (format, args)
  | call_Info format args => (format, args)
  | call_Warning format args => (format, args)
  | call_Error format args => (format, args)
  | call_Fatal format args => (format, args)
  | call_DebugErr err format args => (format, args)
  | call_InfoErr err format args => (format, args)
  | call_WarningErr err format args => (format, args)
  | call_ErrorErr err format args => (format, args)
  | call_FatalErr err format args => (format, args)
  | call_DebugWithFields fields format args => (format, args)
  | call_InfoWithFields fields format args => (format, args)
  | call_WarningWithFields fields format args => (format, args)
  | call_ErrorWithFields fields format args => (format, args)
  | call_FatalWithFields fields format args => (format, args)
  | call_DebugErrWithFields err fields format args => (format, args)
  | call_InfoErrWithFields err fields format args => (format, args)
  | call_WarningErrWithFields err fields format args => (format, args)
  | call_ErrorErrWithFields err fields format args => (format, args)
  | call_FatalErrWithFields err fields format args => (format, args)
  end.

(** The error argument, where the method has one, is not nil. *)
Definition err_given (c : LoggerCall) : Prop :=
  match call_err c with
  | Some err => err ≠ None
  | None => True
  end.

Definition invoke {Ext} (Sprintf : string -> list Value -> string)
    (l : logger Ext) (ctx : Context) (c : LoggerCall) : L Ext unit :=
  match c with
  | call_Debug format args => Logger.Debug Sprintf l ctx format args
  | call_Info format args => Logger.Info Sprintf l ctx format args
  | call_Warning format args => Logger.Warning Sprintf l ctx format args
  | call_Error format args => Logger.Error Sprintf l ctx format args
  | call_Fatal format args => Logger.Fatal Sprintf l ctx format args
  | call_DebugErr err format args => Logger.DebugErr Sprintf l ctx err format args
  | call_InfoErr err format args => Logger.InfoErr Sprintf l ctx err format args
  | call_WarningErr err format args => Logger.WarningErr Sprintf l ctx err format args
  | call_ErrorErr err format args => Logger.ErrorErr Sprintf l ctx err format args
  | call_FatalErr err format args => Logger.FatalErr Sprintf l ctx err format args
  | call_DebugWithFields fields format args => Logger.DebugWithFields Sprintf l ctx fields format args
  | call_InfoWithFields fields format args => Logger.InfoWithFields Sprintf l ctx fields format args
  | call_WarningWithFields fields format args => Logger.WarningWithFields Sprintf l ctx fields format args
  | call_ErrorWithFields fields format args => Logger.ErrorWithFields Sprintf l ctx fields format args
  | call_FatalWithFields fields format args => Logger.FatalWithFields Sprintf l ctx fields format args
  | call_DebugErrWithFields err fields format args => Logger.DebugErrWithFields Sprintf l ctx err fields format args
  | call_InfoErrWithFields err fields format args => Logger.InfoErrWithFields Sprintf l ctx err fields format args
  | call_WarningErrWithFields err fields format args => Logger.WarningErrWithFields Sprintf l ctx err fields format args
  | call_ErrorErrWithFields err fields format args => Logger.ErrorErrWithFields Sprintf l ctx err fields format args
  | call_FatalErrWithFields err fields format args => Logger.FatalErrWithFields Sprintf l ctx err fields format args
  end.

(** ** Reading a list of provider calls *)

(** Who was asked [ShouldLog], and the answer. *)
Definition asked (tr : list Call) : list (nat * bool) :=
  omap (fun c => match c with
                 | CallShouldLog i _ _ ok => Some (i, ok)
                 | CallWrite _ _ _ _ _ _ => None
                 end) tr.

(** Whose [Write] was invoked. *)
Definition written (tr : list Call) : list nat :=
  omap (fun c => match c with
                 | CallShouldLog _ _ _ _ => None
                 | CallWrite i _ _ _ _ _ => Some i
                 end) tr.

(** Every call of the list carries these arguments. *)
Definition carries (ctx : Context) (level : Level) (message : string)
    (fields : Fields) (c : Call) : Prop :=
  match c with
  | CallShouldLog _ ctx' level' _ => ctx' = ctx ∧ level' = level
  | CallWrite _ ctx' level' message' fields' _ =>
      ctx' = ctx ∧ level' = level ∧ message' = message ∧ fields' = fields
  end.

(** A recorded call is one the provider at that position answered: the
    recorded result is what its method returns in some machine state. *)
Definition genuine {Ext} (ps : list (LoggerProvider Ext)) (c : Call) : Prop :=
  match c with
  | CallShouldLog j ctx level ok =>
      ∃ provider m, ps !! j = Some provider
                    ∧ (ShouldLog provider ctx level m).1 = ok
  | CallWrite j ctx level message fields e =>
      ∃ provider m, ps !! j = Some provider
                    ∧ (Write provider ctx level message fields m).1 = e
  end.

(** No recorded [Write] reported an error. *)
Definition no_write_failed (tr : list Call) : Prop :=
  Forall (fun c => match c with
                   | CallShouldLog _ _ _ _ => True
                   | CallWrite _ _ _ _ _ e => e = None
                   end) tr.

(** ** Sample inputs *)

(** A formatter for templates without verbs. *)
Definition plain_Sprintf (format : string) (args : list Value) : string := format.

(** A machine with an empty store, at 2025-11-29 08:05:00. *)
Definition boot : Machine unit :=
  mkMachine [] [] [] (mkTime 2025 11 29 8 5 0) [] tt.

(** A provider for tests: it accepts the levels from [min] up, writes
    its name to standard output when written to, and reports [result]. *)
Definition stub (name : string) (min : Level) (result : error) : LoggerProvider unit :=
  mkLoggerProvider
    (fun ctx level message fields m =>
       (result, set_stdout (stdout m ++ [name])%list m))
    (fun ctx level m => ((min <=? level)%Z, m))
    (fun ctx m => (None, m)).

Definition console_at (min : Level) : ProviderConfig :=
  mkProviderConfig mkLoggerConfig min.

(** A store with the maps {a:1, b:2} and {b:3, c:4}. *)
Definition store_ab : Machine unit :=
  set_heap [ {[ "a" := VInt 1; "b" := VInt 2 ]};
             {[ "b" := VInt 3; "c" := VInt 4 ]} ] boot.

(** A store with the maps {trace_id: OLD}, {user: bob} and
    {error: old, a: 1}. *)
Definition store_misc : Machine unit :=
  set_heap [ {[ "trace_id" := VString "OLD" ]};
             {[ "user" := VString "bob" ]};
             {[ "error" := VString "old"; "a" := VInt 1 ]} ] boot.

(** A context carrying the trace identifier T under the key trace_id. *)
Definition ctx_T : gmap string Value := {[ "trace_id" := VString "T" ]}.

(** Three providers, the middle one failing. *)
Definition three_stubs : logger unit :=
  NewLogger mkLoggerConfig (NewFieldsHandler "trace_id")
    [ stub "A" LevelDebug None;
      stub "B" LevelDebug (Some "disk full");
      stub "C" LevelDebug None ].

(** Two providers, both failing, the second one taking errors only. *)
Definition all_failing : logger unit :=
  NewLogger mkLoggerConfig (NewFieldsHandler "trace_id")
    [ stub "A" LevelDebug (Some "disk full");
      stub "B" LevelError (Some "no route") ].

(** A stand-in for the library's tables: no rune above Latin-1 counts as
    printable, so each is written as an escape. *)
Definition latin1_only : PrintTables := {| isPrintTable := fun _ => false |}.

Definition console_logger : logger unit :=
  NewLoggerDefault (tables:=latin1_only) (console_at LevelDebug)
    (NewFieldsHandler "trace_id").

(** A store with the one map {count: 3}. *)
Definition store_count : Machine unit :=
  set_heap [ {[ "count" := VInt 3 ]} ] boot.


(** ** What a record carries, and what a Fatal call prints *)

(** The entries of the explicit fields argument, where the method has one. *)
Definition explicit_entries (h : list (gmap string Value)) (c : LoggerCall)
  : gmap string Value :=
  match call_fields c with
  | Some fields => deref h fields
  | None => ∅
  end.

(** The [error] entry an [...Err...] method puts on top. *)
Definition error_entry (c : LoggerCall) (base : gmap string Value)
  : gmap string Value :=
  match call_err c with
  | Some (Some text) => <["error" := VString text]> base
  | _ => base
  end.

(** The [trace_id] entry a context with a string under the key puts on top. *)
Definition trace_entry (key : string) (ctx : Context) (base : gmap string Value)
  : gmap string Value :=
  match ctx with
  | Some cx =>
      match ctx_Value cx key with
      | Some (VString traceID) => <["trace_id" := VString traceID]> base
      | _ => base
      end
  | None => base
  end.

(** The fields argument, where the method has one, is nil or a map of the store. *)
Definition call_fields_valid (h : list (gmap string Value)) (c : LoggerCall) : Prop :=
  match call_fields c with
  | Some fields => valid h fields
  | None => True
  end.

(** The text a Fatal-family method hands to the [log] package:
    [log.Fatal(message)] or [log.Fatalf("%s: %v", message, err)]. *)
Definition fatal_text (Sprintf : string -> list Value -> string) (c : LoggerCall)
  : string :=
  match call_err c with
  | Some err =>
      Sprintf (call_template c).1 (call_template c).2 +:+ ": " +:+ fmt_v_error err
  | None => Sprintf (call_template c).1 (call_template c).2
  end.


(** The fields block of the console line of a record without explicit
    fields and without error: the trace identifier, if the context has one. *)
Definition trace_block {tables : PrintTables} (key : string) (ctx : Context)
  : string :=
  match ctx with
  | Some cx =>
      match ctx_Value cx key with
      | Some (VString traceID) =>
          "{trace_id=" +:+ String dquote "" +:+ escape traceID +:+ String dquote "}"
      | _ => ""
      end
  | None => ""
  end.

(** The console line of a record. *)
Definition console_line (t : Time) (level : Level) (message block : string) : string :=
  "[" +:+ Format_dash t +:+ "] " +:+ fmtProvider.levelStr level +:+ " "
  +:+ String dquote "" +:+ message +:+ String dquote "" +:+ " " +:+ block
  +:+ String newline "".

Definition is_digit (c : ascii) : bool :=
  ((48 <=? nat_of_ascii c) && (nat_of_ascii c <=? 57))%nat.

(** A byte that [%q] copies as it is: printable ASCII other than the
    double quote and the backslash. *)
Definition verbatim_byte (c : ascii) : Prop :=
  (32 ≤ nat_of_ascii c ≤ 126)%nat ∧ c ≠ dquote ∧ c ≠ "\"%char.

(** A byte that is no ASCII control character: not below 0x20, not 0x7f. *)
Definition plain_byte (ch : ascii) : Prop :=
  (32 ≤ nat_of_ascii ch)%nat ∧ nat_of_ascii ch ≠ 127%nat.

(** A context whose value under trace_id is not a string. *)
Definition ctx_int : gmap string Value := {[ "trace_id" := VInt 7 ]}.

(** * Properties *)

Local Open Scope list_scope.

(** ** The store of maps *)

Section store_facts.
Context {Ext : Type}.
Implicit Types (m : Machine Ext) (f : Fields) (p : nat)
  (h : list (gmap string Value)).

Lemma range_order_Permutation {A} (seed : nat) (l : list A) :
  range_order seed l ≡ₚ l.
Proof.
  unfold range_order.
  destruct (permutations l !! seed) as [l'|] eqn:E; simpl; [|done].
  symmetry. apply permutations_Permutation.
  apply list_elem_of_lookup. by exists seed.
Qed.

(** Every order of the entries is the walk of some seed. *)
Lemma range_order_any {A} (l l' : list A) :
  l' ≡ₚ l → ∃ seed, range_order seed l = l'.
Proof.
  intros Hp. symmetry in Hp. apply permutations_Permutation in Hp.
  apply list_elem_of_lookup in Hp as [seed Hseed].
  exists seed. unfold range_order. by rewrite Hseed.
Qed.

Lemma foldl_insert_union (kvs : list (string * Value)) (old : gmap string Value) :
  NoDup kvs.*1 →
  foldl (λ acc kv, <[kv.1:=kv.2]> acc) old kvs = list_to_map kvs ∪ old.
Proof.
  revert old. induction kvs as [|[k v] kvs IH]; intros old Hnd.
  - simpl. by rewrite (left_id_L ∅ (∪)).
  - rewrite fmap_cons in Hnd. apply NoDup_cons in Hnd as [Hk Hnd].
    cbn [foldl fst snd]. rewrite IH by done.
    rewrite list_to_map_cons, <- insert_union_l. symmetry.
    apply insert_union_r.
    by apply not_elem_of_list_to_map_1.
Qed.

Lemma foldl_mapassign_heap p (kvs : list (string * Value)) m :
  heap (foldl (λ acc kv, mapassign p kv.1 kv.2 acc) m kvs)
  = alter (λ old, foldl (λ acc kv, <[kv.1:=kv.2]> acc) old kvs) p (heap m).
Proof.
  revert m. induction kvs as [|[k v] kvs IH]; intros m; simpl.
  - symmetry. apply list_alter_id. done.
  - rewrite IH. simpl. by rewrite list_alter_alter_eq.
Qed.

(** [maps.Copy] lays the source entries over the destination's, whatever
    order the runtime walks the source in. *)
Lemma maps_Copy_heap p f m :
  heap (maps_Copy p f m) = alter (λ old, deref (heap m) f ∪ old) p (heap m).
Proof.
  unfold maps_Copy, range_map.
  rewrite foldl_mapassign_heap. simpl.
  apply list_alter_ext; [|done]. intros old _.
  set (kvs := range_order _ _).
  assert (Hp : kvs ≡ₚ map_to_list (deref (heap m) f))
    by apply range_order_Permutation.
  assert (Hnd : NoDup kvs.*1).
  { rewrite Hp. apply NoDup_fst_map_to_list. }
  rewrite foldl_insert_union by done.
  f_equal.
  rewrite (list_to_map_proper kvs (map_to_list (deref (heap m) f))) by done.
  apply list_to_map_to_list.
Qed.

Lemma deref_app_valid h f x : valid h f → deref (h ++ [x]) f = deref h f.
Proof.
  destruct f as [p|]; simpl; [|done]. intros Hp.
  by rewrite lookup_app_l.
Qed.

Lemma maps_Copy_fresh h x f m :
  heap m = h ++ [x] → valid h f →
  heap (maps_Copy (length h) f m) = h ++ [deref h f ∪ x].
Proof.
  intros Hm Hf. rewrite maps_Copy_heap, Hm.
  rewrite alter_app_r_alt by lia.
  replace (length h - length h) with 0 by lia. simpl.
  by rewrite deref_app_valid.
Qed.

Lemma mapassign_fresh h x k v m :
  heap m = h ++ [x] →
  heap (mapassign (length h) k v m) = h ++ [<[k:=v]> x].
Proof.
  intros Hm. unfold mapassign. simpl. rewrite Hm.
  rewrite alter_app_r_alt by lia.
  by replace (length h - length h) with 0 by lia.
Qed.

Lemma deref_fresh h x : deref (h ++ [x]) (Some (length h)) = x.
Proof.
  simpl. rewrite lookup_app_r by lia.
  by replace (length h - length h) with 0 by lia.
Qed.

Lemma lookup_fresh_ne h x q : q ≠ length h → (h ++ [x]) !! q = h !! q.
Proof.
  intros Hq. destruct (decide (q < length h)) as [Hlt|Hge].
  - by rewrite lookup_app_l.
  - rewrite !lookup_ge_None_2; [done|lia|].
    rewrite length_app. simpl. lia.
Qed.

End store_facts.

(** ** The fields handler *)

Section fields_facts.
Context {Ext : Type}.
Implicit Types (m : Machine Ext) (base overlay f : Fields).

(** The store after [MergeFields]: one more map, the merged one. *)
Lemma MergeFields_store base overlay m :
  valid (heap m) base → valid (heap m) overlay →
  ∃ m',
    fieldsHandler.MergeFields base overlay m = (Some (length (heap m)), m')
    ∧ heap m' = heap m ++ [deref (heap m) overlay ∪ deref (heap m) base].
Proof.
  intros Hb Ho.
  set (h := heap m).
  set (m1 := (make_Fields m).2).
  assert (H1 : heap m1 = h ++ [∅]) by done.
  pose proof (maps_Copy_fresh h ∅ base m1 H1 Hb) as H2.
  pose proof (maps_Copy_fresh h _ overlay _ H2 Ho) as H3.
  rewrite (right_id_L ∅ (∪)) in H3.
  by exists (maps_Copy (length h) overlay (maps_Copy (length h) base m1)).
Qed.

(** C6.  [MergeFields base overlay] returns a map that was not in the
    store before, holding every entry of [base] with every entry of
    [overlay] laid on top, so [overlay] wins wherever both have the key.
    No map that existed before the call is changed, both inputs read as
    before, and two empty inputs give an empty map that is not nil. *)
Theorem MergeFields_overlay_wins base overlay m :
  valid (heap m) base → valid (heap m) overlay →
  ∃ r m',
    fieldsHandler.MergeFields base overlay m = (Some r, m')
    ∧ heap m !! r = None
    ∧ deref (heap m') (Some r) = deref (heap m) overlay ∪ deref (heap m) base
    ∧ (∀ k, deref (heap m') (Some r) !! k
            = match deref (heap m) overlay !! k with
              | Some v => Some v
              | None => deref (heap m) base !! k
              end)
    ∧ (∀ q, q ≠ r → heap m' !! q = heap m !! q)
    ∧ deref (heap m') base = deref (heap m) base
    ∧ deref (heap m') overlay = deref (heap m) overlay
    ∧ (deref (heap m) base = ∅ → deref (heap m) overlay = ∅ →
       Some r ≠ None ∧ deref (heap m') (Some r) = ∅).
Proof.
  intros Hb Ho.
  destruct (MergeFields_store base overlay m Hb Ho) as (m' & Hrun & H3).
  set (h := heap m) in *.
  exists (length h), m'.
  split; [done|].
  assert (Hr : deref (heap m') (Some (length h)) = deref h overlay ∪ deref h base).
  { rewrite H3. apply deref_fresh. }
  split; [by apply lookup_ge_None_2|].
  split; [done|].
  split.
  { intros k. rewrite Hr, lookup_union.
    destruct (deref h overlay !! k), (deref h base !! k); done. }
  split; [intros q Hq; rewrite H3; by apply lookup_fresh_ne|].
  split; [rewrite H3; by apply deref_app_valid|].
  split; [rewrite H3; by apply deref_app_valid|].
  intros Eb Eo. split; [done|].
  rewrite Hr, Eb, Eo. by rewrite (left_id_L ∅ (∪)).
Qed.

End fields_facts.

Section extract_facts.
Context {Ext : Type}.
Implicit Types (m : Machine Ext) (f : Fields).

(** C5.  With a nil context [ExtractFieldsFromContext] hands back the
    very [fields] it was given and leaves the machine alone.  With a
    context that carries a string under the trace key it returns a map
    that was not in the store before: the entries of [fields] with
    [trace_id] set to the context's value (replacing an entry of that
    name); no map that existed before is changed and [fields] reads as
    before. *)
Theorem ExtractFieldsFromContext_trace_id (TraceIDKey : string) f m :
  fieldsHandler.ExtractFieldsFromContext TraceIDKey None f m = (f, m)
  ∧ ∀ c traceID,
      valid (heap m) f →
      ctx_Value c TraceIDKey = Some (VString traceID) →
      ∃ r m',
        fieldsHandler.ExtractFieldsFromContext TraceIDKey (Some c) f m = (Some r, m')
        ∧ heap m !! r = None
        ∧ deref (heap m') (Some r)
          = <["trace_id" := VString traceID]> (deref (heap m) f)
        ∧ (∀ q, q ≠ r → heap m' !! q = heap m !! q)
        ∧ deref (heap m') f = deref (heap m) f.
Proof.
  split; [done|]. intros c traceID Hf Hc.
  set (h := heap m).
  set (m1 := (make_Fields m).2).
  assert (H1 : heap m1 = h ++ [∅]) by done.
  pose proof (maps_Copy_fresh h ∅ f m1 H1 Hf) as H2.
  rewrite (right_id_L ∅ (∪)) in H2.
  pose proof (mapassign_fresh h _ "trace_id" (VString traceID) _ H2) as H3.
  exists (length h),
    (mapassign (length h) "trace_id" (VString traceID) (maps_Copy (length h) f m1)).
  split.
  { unfold fieldsHandler.ExtractFieldsFromContext. by rewrite Hc. }
  split; [by apply lookup_ge_None_2|].
  split; [rewrite H3; apply deref_fresh|].
  split; [intros q Hq; rewrite H3; by apply lookup_fresh_ne|].
  rewrite H3. by apply deref_app_valid.
Qed.

End extract_facts.

(** ** The console provider *)

Lemma length_append (s1 s2 : string) :
  String.length (s1 +:+ s2) = String.length s1 + String.length s2.
Proof.
  induction s1 as [|a s1 IH]; [done|].
  change (String a s1 +:+ s2) with (String a (s1 +:+ s2)).
  simpl. by rewrite IH.
Qed.

Lemma foldl_snoc_fmap {A B} (g : A → B) (l : list A) (acc : list B) :
  foldl (λ pairs x, pairs ++ [g x]) acc l = acc ++ (g <$> l).
Proof.
  revert acc. induction l as [|x l IH]; intros acc; simpl.
  - by rewrite app_nil_r.
  - rewrite IH. by rewrite <- app_assoc.
Qed.

Lemma pair_text_length {tables : PrintTables} (kv : string * Value) :
  (0 < String.length (fmtProvider.pair_text kv))%nat.
Proof.
  destruct kv as [k v]. unfold fmtProvider.pair_text. simpl.
  destruct v; rewrite !length_append; simpl; lia.
Qed.

Lemma strings_Join_length (x : string) (rest : list string) (sep : string) :
  (String.length x ≤ String.length (strings_Join (x :: rest) sep))%nat.
Proof.
  destruct rest as [|y rest]; simpl; [done|].
  rewrite length_append. lia.
Qed.

Lemma char_of_byte_of (c : ascii) : char_of (byte_of c) = c.
Proof. unfold char_of, byte_of. by rewrite Nat2Z.id, ascii_nat_embedding. Qed.

Lemma appendEscapedRune_verbatim {tables : PrintTables} (c : ascii) :
  verbatim_byte c → appendEscapedRune (byte_of c) = String c "".
Proof.
  intros ([Hlo Hhi] & Hq & Hb).
  assert (H34 : byte_of c ≠ 34%Z).
  { intros E. apply Hq. rewrite <- (char_of_byte_of c), E. reflexivity. }
  assert (H92 : byte_of c ≠ 92%Z).
  { intros E. apply Hb. rewrite <- (char_of_byte_of c), E. reflexivity. }
  assert (Hr : (32 ≤ byte_of c ≤ 126)%Z) by (unfold byte_of; lia).
  unfold appendEscapedRune, IsPrint, AppendRune, between.
  destruct (Z.eqb_spec (byte_of c) 34); [done|].
  destruct (Z.eqb_spec (byte_of c) 92); [done|].
  cbn [orb].
  destruct (Z.leb_spec (byte_of c) 255); [|lia].
  destruct (Z.leb_spec 32 (byte_of c)); [|lia].
  destruct (Z.leb_spec (byte_of c) 126); [|lia].
  cbn [andb orb].
  destruct (Z.leb_spec 0 (byte_of c)); [|lia].
  destruct (Z.leb_spec (byte_of c) 127); [|lia].
  cbn [andb]. by rewrite char_of_byte_of.
Qed.

(** A text of printable ASCII without quote and backslash is its own
    escape. *)
Lemma escape_verbatim {tables : PrintTables} (text : string) :
  Forall verbatim_byte (list_ascii_of_string text) → escape text = text.
Proof.
  unfold escape.
  induction text as [|c rest IH]; [done|].
  intros Hall. cbn [list_ascii_of_string] in Hall.
  apply Forall_cons in Hall as [Hc Hrest].
  cbn [String.length quote_loop].
  pose proof Hc as ([Hlo Hhi] & _).
  destruct (Z.ltb_spec (byte_of c) 128); [|unfold byte_of in *; lia].
  destruct (Z.eqb_spec (byte_of c) RuneError);
    [unfold byte_of, RuneError in *; lia|].
  cbn [Nat.eqb andb string_drop].
  rewrite (appendEscapedRune_verbatim c Hc), (IH Hrest). reflexivity.
Qed.

Section console_facts.
Context {Ext : Type} {tables : PrintTables}.
Implicit Types (m : Machine Ext) (p : ProviderConfig) (ctx : Context)
  (level : Level) (fields : Fields).

(** What [serializeFields] returns: nothing for a map without entries,
    otherwise the braces around the rendered pairs in the order the
    runtime walked the map. *)
Lemma serializeFields_block fields m :
  ∃ block m',
    fmtProvider.serializeFields fields m = (block, m')
    ∧ heap m' = heap m ∧ stdout m' = stdout m ∧ stderr m' = stderr m
    ∧ now m' = now m
    ∧ (deref (heap m) fields = ∅ → block = "")
    ∧ (deref (heap m) fields ≠ ∅ →
       ∃ kvs, kvs ≡ₚ map_to_list (deref (heap m) fields)
              ∧ block = "{" +:+ strings_Join (fmtProvider.pair_text <$> kvs) " " +:+ "}")
    ∧ block ≠ "{}".
Proof.
  unfold fmtProvider.serializeFields.
  destruct (decide (size (deref (heap m) fields) = 0)) as [Hz|Hnz].
  - exists "", m. repeat split; try done.
    intros Hne. by apply map_size_empty_iff in Hz.
  - apply map_size_non_empty_iff in Hnz.
    unfold range_map. eexists _, _. split; [reflexivity|].
    set (kvs := range_order _ _).
    assert (Hp : kvs ≡ₚ map_to_list (deref (heap m) fields))
      by apply range_order_Permutation.
    rewrite foldl_snoc_fmap. simpl.
    repeat split; try done.
    + by exists kvs.
    + destruct kvs as [|kv kvs'].
      { apply Permutation_nil_l in Hp. symmetry in Hp.
        by apply map_to_list_empty_iff in Hp. }
      intros Heq. apply (f_equal String.length) in Heq.
      rewrite !length_append in Heq. rewrite fmap_cons in Heq.
      pose proof (strings_Join_length (fmtProvider.pair_text kv)
                    (fmtProvider.pair_text <$> kvs') " ").
      pose proof (pair_text_length kv).
      change (String.length "{") with 1 in Heq.
      change (String.length "}") with 1 in Heq.
      change (String.length "{}") with 2 in Heq. lia.
Qed.

(** C7.  The five severities are ordered Debug < Info < Warn < Error <
    Fatal, and a console provider configured with minimum severity
    [cfgLevel p] answers [ShouldLog] with true exactly for the severities
    at or above it, whatever the context; through the interface the
    answer is the same and the machine is left as it was. *)
Theorem ShouldLog_threshold :
  (LevelDebug < LevelInfo < LevelWarn ∧ LevelWarn < LevelError < LevelFatal)%Z
  ∧ (∀ p ctx level,
       fmtProvider.ShouldLog p ctx level = true ↔ (level >= cfgLevel p)%Z)
  ∧ (∀ p ctx level m,
       ShouldLog (NewFmtProvider p) ctx level m
       = (bool_decide (level >= cfgLevel p)%Z, m)).
Proof.
  split; [unfold LevelDebug, LevelInfo, LevelWarn, LevelError, LevelFatal; lia|].
  assert (H : ∀ p ctx level,
             fmtProvider.ShouldLog p ctx level = true ↔ (level >= cfgLevel p)%Z).
  { intros p ctx level. unfold fmtProvider.ShouldLog.
    rewrite Z.leb_le. lia. }
  split; [exact H|].
  intros p ctx level m. simpl. f_equal.
  destruct (fmtProvider.ShouldLog p ctx level) eqn:E; symmetry.
  - apply bool_decide_eq_true. by apply (H p ctx level).
  - apply bool_decide_eq_false. intros Hge.
    apply (H p ctx level) in Hge. congruence.
Qed.

(** C8.  When the level passes the filter, [Write] appends exactly one
    text to standard output: the bracketed timestamp, the level name
    (debug, info, warning, error and, for Fatal, critical), the message
    between double quotes, the fields block and a newline.  The block is
    empty for a map without entries and is never the text of an empty
    pair of braces; otherwise it is the braces around the [k=v] pairs,
    separated by spaces, in some order of the entries.  A string value
    stands between double quotes, as [%q] writes it: printable ASCII is
    copied, a quote, a backslash or a newline inside the value is
    escaped.  Any other value stands as [%v] writes it: an integer in
    decimal, a boolean as true or false. *)
Theorem Write_line_format p ctx level message fields m :
  fmtProvider.ShouldLog p ctx level = true →
  ∃ block m',
    fmtProvider.Write p ctx level message fields m = (None, m')
    ∧ stdout m' = stdout m ++
        ["[" +:+ Format_dash (now m) +:+ "] " +:+ fmtProvider.levelStr level
         +:+ " " +:+ String dquote "" +:+ message +:+ String dquote ""
         +:+ " " +:+ block +:+ String newline ""]
    ∧ heap m' = heap m ∧ stderr m' = stderr m
    ∧ fmtProvider.levelStr <$> severities
      = ["debug"; "info"; "warning"; "error"; "critical"]
    ∧ (deref (heap m) fields = ∅ → block = "")
    ∧ (deref (heap m) fields ≠ ∅ →
       ∃ kvs, kvs ≡ₚ map_to_list (deref (heap m) fields)
              ∧ block = "{" +:+ strings_Join (fmtProvider.pair_text <$> kvs) " " +:+ "}")
    ∧ block ≠ "{}"
    ∧ (∀ k text, fmtProvider.pair_text (k, VString text)
                 = k +:+ "=" +:+ String dquote "" +:+ escape text +:+ String dquote "")
    ∧ (∀ text, Forall verbatim_byte (list_ascii_of_string text) → escape text = text)
    ∧ escape ("a" +:+ String dquote "" +:+ String newline "" +:+ "\")
      = "a\" +:+ String dquote "" +:+ "\n\\"
    ∧ (∀ k z, fmtProvider.pair_text (k, VInt z)
              = k +:+ "=" +:+ NilZero.string_of_int (Z.to_int z))
    ∧ (∀ k b, fmtProvider.pair_text (k, VBool b)
              = k +:+ "=" +:+ (if b then "true" else "false"))
    ∧ (∀ k repr, fmtProvider.pair_text (k, VOther repr) = k +:+ "=" +:+ repr)
    ∧ (∀ pair sep, strings_Join [pair] sep = pair)
    ∧ (∀ pair pair' rest sep,
         strings_Join (pair :: pair' :: rest) sep
         = pair +:+ sep +:+ strings_Join (pair' :: rest) sep).
Proof.
  intros Hok.
  destruct (serializeFields_block fields m)
    as (block & m1 & Hs & Hheap & Hout & Herr & Hnow & Hempty & Hfull & Hbr).
  exists block, (fmtProvider.Printf
    ("[" +:+ Format_dash (now m) +:+ "] " +:+ fmtProvider.levelStr level +:+ " "
     +:+ String dquote message +:+ String dquote " " +:+ block
     +:+ String newline "") m1).
  split.
  { unfold fmtProvider.Write. rewrite Hok. simpl. by rewrite Hs. }
  split; [simpl; by rewrite Hout|].
  split; [done|]. split; [done|]. split; [done|]. split; [done|].
  split; [done|]. split; [done|]. split; [done|].
  split; [apply escape_verbatim|].
  split; [reflexivity|].
  split; [done|]. split; [by intros k []|]. split; [done|]. split; done.
Qed.

Lemma fmtProvider_Write_nil p ctx level message fields m :
  (fmtProvider.Write p ctx level message fields m).1 = None.
Proof.
  unfold fmtProvider.Write.
  destruct (negb _); [done|].
  by destruct (fmtProvider.serializeFields fields m).
Qed.

(** C10.  Below the configured minimum [Write] does nothing: it reports
    success and the machine, standard output included, is as before. *)
Theorem Write_below_threshold_noop p ctx level message fields m :
  (level < cfgLevel p)%Z →
  fmtProvider.Write p ctx level message fields m = (None, m).
Proof.
  intros Hlt. unfold fmtProvider.Write, fmtProvider.ShouldLog.
  destruct (cfgLevel p <=? level)%Z eqn:E; [|done].
  apply Z.leb_le in E. lia.
Qed.

End console_facts.

(** ** The logger *)

Lemma asked_app (tr1 tr2 : list Call) : asked (tr1 ++ tr2) = asked tr1 ++ asked tr2.
Proof. apply omap_app. Qed.

Lemma written_app (tr1 tr2 : list Call) :
  written (tr1 ++ tr2) = written tr1 ++ written tr2.
Proof. apply omap_app. Qed.

Section logger_facts.
Context {Ext : Type}.
Implicit Types (l : logger Ext) (ctx : Context) (level : Level)
  (fields allFields : Fields) (message : string) (s : Proc Ext).

(** The loop of [writeLog]: it runs to its end, asks the providers one
    after the other and writes to those that answered true. *)
Lemma dispatch_loop ctx level message allFields (ps : list (LoggerProvider Ext)) :
  ∀ (pre : list (LoggerProvider Ext)) s, ∃ s' tr,
    Logger.range_providers (length pre) ps (λ i provider,
      ok <- Logger.call_ShouldLog i provider ctx level ;;
      if ok then Logger.call_Write i provider ctx level message allFields ;;; ret tt
      else ret tt) s = Returned tt s'
    ∧ calls s' = calls s ++ tr
    ∧ readers s' = readers s
    ∧ (asked tr).*1 = seq (length pre) (length ps)
    ∧ written tr = (filter (λ ib, ib.2 = true) (asked tr)).*1
    ∧ Forall (carries ctx level message allFields) tr
    ∧ Forall (genuine (pre ++ ps)) tr.
Proof.
  induction ps as [|p ps IH]; intros pre s.
  - exists s, []. simpl. by rewrite app_nil_r.
  - assert (Hp : (pre ++ p :: ps) !! length pre = Some p)
      by apply list_lookup_middle, eq_refl.
    assert (Hlen : S (length pre) = length (pre ++ [p]))
      by (rewrite length_app; simpl; lia).
    assert (Hall : (pre ++ [p]) ++ ps = pre ++ p :: ps)
      by (by rewrite <- app_assoc).
    cbn [Logger.range_providers].
    unfold bind at 1. unfold bind at 1.
    unfold Logger.call_ShouldLog at 1. unfold bind at 1. unfold lift at 1.
    destruct (ShouldLog p ctx level (mach s)) as [ok m1] eqn:Eok.
    unfold bind at 1. unfold record at 1. unfold ret at 1. cbn [mach calls readers].
    destruct ok.
    + unfold bind at 1. unfold Logger.call_Write at 1.
      unfold bind at 1. unfold lift at 1. cbn [mach calls readers].
      destruct (Write p ctx level message allFields m1) as [e m2] eqn:Ew.
      unfold bind at 1. unfold record at 1. unfold ret at 1 2.
      cbn [mach calls readers]. rewrite Hlen.
      edestruct (IH (pre ++ [p])) as (s' & tr & -> & Hc & Hr & Ha & Hw & Hf & Hg).
      rewrite Hall in Hg. rewrite <- Hlen in *.
      exists s', ([CallShouldLog (length pre) ctx level true;
                   CallWrite (length pre) ctx level message allFields e] ++ tr).
      split; [done|]. rewrite Hc, Hr. cbn [calls readers].
      split; [by rewrite <- !app_assoc|]. split; [done|].
      rewrite asked_app, written_app, fmap_app, filter_app, fmap_app, Ha, Hw.
      split; [done|]. split; [done|].
      split; (apply Forall_app; split; [|done]).
      * by repeat constructor.
      * repeat constructor.
        -- exists p, (mach s). by rewrite Eok.
        -- exists p, m1. by rewrite Ew.
    + unfold ret at 1. rewrite Hlen.
      edestruct (IH (pre ++ [p])) as (s' & tr & -> & Hc & Hr & Ha & Hw & Hf & Hg).
      rewrite Hall in Hg. rewrite <- Hlen in *.
      exists s', ([CallShouldLog (length pre) ctx level false] ++ tr).
      split; [done|]. rewrite Hc, Hr. cbn [calls readers].
      split; [by rewrite <- !app_assoc|]. split; [done|].
      rewrite asked_app, written_app, fmap_app, filter_app, fmap_app, Ha, Hw.
      split; [done|]. split; [done|].
      split; (apply Forall_app; split; [|done]).
      * by repeat constructor.
      * repeat constructor. exists p, (mach s). by rewrite Eok.
Qed.

(** When the providers answer [ShouldLog] without touching the machine,
    the loop leaves the machine as the [Write]s of the accepting
    providers, run in list order, leave it. *)
Lemma dispatch_loop_machine ctx level message allFields
    (accepts : LoggerProvider Ext → bool) (ps : list (LoggerProvider Ext)) :
  (∀ p m, p ∈ ps → ShouldLog p ctx level m = (accepts p, m)) →
  ∀ i s, ∃ s',
    Logger.range_providers i ps (λ i provider,
      ok <- Logger.call_ShouldLog i provider ctx level ;;
      if ok then Logger.call_Write i provider ctx level message allFields ;;; ret tt
      else ret tt) s = Returned tt s'
    ∧ mach s'
      = foldl (λ m p, (Write p ctx level message allFields m).2) (mach s)
          (filter (λ p, accepts p = true) ps).
Proof.
  induction ps as [|p ps IH]; intros Hpure i s.
  - by exists s.
  - assert (Hps : ∀ q m, q ∈ ps → ShouldLog q ctx level m = (accepts q, m)).
    { intros q m Hq. apply Hpure. by right. }
    cbn [Logger.range_providers].
    unfold bind at 1. unfold bind at 1.
    unfold Logger.call_ShouldLog at 1. unfold bind at 1. unfold lift at 1.
    rewrite (Hpure p (mach s)) by left.
    unfold bind at 1. unfold record at 1. unfold ret at 1. cbn [mach calls readers].
    rewrite filter_cons.
    destruct (accepts p) eqn:Ep.
    + unfold bind at 1. unfold Logger.call_Write at 1.
      unfold bind at 1. unfold lift at 1. cbn [mach calls readers].
      destruct (Write p ctx level message allFields (mach s)) as [e m2] eqn:Ew.
      unfold bind at 1. unfold record at 1. unfold ret at 1 2.
      cbn [mach calls readers].
      edestruct (IH Hps (S i)) as (s' & -> & Hm).
      exists s'. split; [done|]. rewrite Hm. cbn [mach].
      rewrite decide_True by done. cbn [foldl]. by rewrite Ew.
    + unfold ret at 1.
      edestruct (IH Hps (S i)) as (s' & -> & Hm).
      exists s'. split; [done|]. rewrite Hm. cbn [mach].
      by rewrite decide_False by done.
Qed.

Lemma writeLog_dispatch l ctx level message fields s :
  ∃ s' tr,
    Logger.writeLog l ctx level message fields s = Returned tt s'
    ∧ calls s' = calls s ++ tr
    ∧ readers s' = readers s
    ∧ (asked tr).*1 = seq 0 (length (providers l))
    ∧ written tr = (filter (λ ib, ib.2 = true) (asked tr)).*1
    ∧ Forall (carries ctx level message
                (ExtractFieldsFromContext (fieldsHandler l) ctx fields (mach s)).1) tr
    ∧ Forall (genuine (providers l)) tr.
Proof.
  unfold Logger.writeLog. unfold bind at 1. unfold RLock at 1.
  unfold defer. unfold bind at 1.
  unfold Logger.extractFieldsFromContext, lift. cbn [mach calls readers].
  destruct (ExtractFieldsFromContext (fieldsHandler l) ctx fields (mach s))
    as [allFields m0].
  edestruct (dispatch_loop ctx level message allFields (providers l) [])
    as (s' & tr & Hrun & Hc & Hr & Ha & Hw & Hf & Hg).
  cbn [length app] in Hrun, Ha, Hg. rewrite Hrun.
  unfold RUnlock. rewrite Hr. cbn [mach calls readers].
  eexists _, tr. split; [reflexivity|]. cbn [mach calls readers fst].
  by rewrite Hc.
Qed.

Lemma writeLog_machine l ctx level message fields s
    (accepts : LoggerProvider Ext → bool) :
  (∀ p m, p ∈ providers l → ShouldLog p ctx level m = (accepts p, m)) →
  ∃ s',
    Logger.writeLog l ctx level message fields s = Returned tt s'
    ∧ mach s'
      = foldl (λ m p,
                 (Write p ctx level message
                    (ExtractFieldsFromContext (fieldsHandler l) ctx fields (mach s)).1 m).2)
          (ExtractFieldsFromContext (fieldsHandler l) ctx fields (mach s)).2
          (filter (λ p, accepts p = true) (providers l)).
Proof.
  intros Hpure.
  unfold Logger.writeLog. unfold bind at 1. unfold RLock at 1.
  unfold defer. unfold bind at 1.
  unfold Logger.extractFieldsFromContext, lift. cbn [mach calls readers].
  destruct (ExtractFieldsFromContext (fieldsHandler l) ctx fields (mach s))
    as [allFields m0].
  edestruct (dispatch_loop_machine ctx level message allFields accepts
               (providers l) Hpure 0)
    as (s' & Hrun & Hm).
  rewrite Hrun.
  destruct (dispatch_loop ctx level message allFields (providers l) []
              (mkProc m0 (calls s) (S (readers s))))
    as (s'' & tr & Hrun' & _ & Hr & _).
  cbn [length] in Hrun'. rewrite Hrun in Hrun'. injection Hrun' as <-.
  unfold RUnlock. rewrite Hr. cbn [mach calls readers].
  eexists. split; [reflexivity|]. cbn [mach fst snd]. exact Hm.
Qed.

End logger_facts.

Lemma asked_elem (tr : list Call) (j : nat) (ok : bool) :
  (j, ok) ∈ asked tr ↔ ∃ ctx level, CallShouldLog j ctx level ok ∈ tr.
Proof.
  unfold asked. rewrite list_elem_of_omap. split.
  - intros ([i c lv b|i c lv msg f e] & Hin & Heq); simplify_eq. eauto.
  - intros (c & lv & Hin). eexists. split; [exact Hin|done].
Qed.

Lemma written_elem (tr : list Call) (j : nat) :
  j ∈ written tr ↔ ∃ ctx level message fields e,
                     CallWrite j ctx level message fields e ∈ tr.
Proof.
  unfold written. rewrite list_elem_of_omap. split.
  - intros ([i c lv b|i c lv msg f e] & Hin & Heq); simplify_eq. eauto 10.
  - intros (c & lv & msg & f & e & Hin). eexists. split; [exact Hin|done].
Qed.

(** Who answered true was written to, with the arguments of the record. *)
Lemma accepted_is_written (tr : list Call) ctx level message fields (j : nat) :
  written tr = (filter (λ ib, ib.2 = true) (asked tr)).*1 →
  Forall (carries ctx level message fields) tr →
  (j, true) ∈ asked tr →
  ∃ e, CallWrite j ctx level message fields e ∈ tr.
Proof.
  intros Hw Hf Hj.
  assert (Hin : j ∈ written tr).
  { rewrite Hw. apply list_elem_of_fmap. exists (j, true).
    split; [done|]. by apply list_elem_of_filter. }
  apply written_elem in Hin as (c & lv & msg & f & e & Hin).
  exists e. rewrite Forall_forall in Hf.
  destruct (Hf _ Hin) as (-> & -> & -> & ->). done.
Qed.

(** Every provider of a list that was walked from position 0 was asked. *)
Lemma everyone_asked (tr : list Call) ctx level message fields (n j : nat) :
  (asked tr).*1 = seq 0 n →
  Forall (carries ctx level message fields) tr →
  j < n →
  ∃ ok, CallShouldLog j ctx level ok ∈ tr.
Proof.
  intros Ha Hf Hj.
  assert (Hin : j ∈ (asked tr).*1).
  { rewrite Ha. apply elem_of_seq. lia. }
  apply list_elem_of_fmap in Hin as ([j' ok] & -> & Hin).
  apply asked_elem in Hin as (c & lv & Hin).
  exists ok. rewrite Forall_forall in Hf.
  destruct (Hf _ Hin) as (-> & ->). done.
Qed.

Lemma NoDup_fst_functional {A B} (l : list (A * B)) (k : A) (x y : B) :
  NoDup l.*1 → (k, x) ∈ l → (k, y) ∈ l → x = y.
Proof.
  induction l as [|[k' z] l IH]; intros Hnd Hx Hy.
  - by apply elem_of_nil in Hx.
  - rewrite fmap_cons in Hnd. apply NoDup_cons in Hnd as [Hk Hnd].
    apply elem_of_cons in Hx as [Hx|Hx]; apply elem_of_cons in Hy as [Hy|Hy].
    + congruence.
    + exfalso. apply Hk. apply list_elem_of_fmap. exists (k, y).
      split; [|done]. simpl. congruence.
    + exfalso. apply Hk. apply list_elem_of_fmap. exists (k, x).
      split; [|done]. simpl. congruence.
    + by apply IH.
Qed.

(** Who answered false was not written to. *)
Lemma refused_not_written (tr : list Call) (n j : nat) :
  (asked tr).*1 = seq 0 n →
  written tr = (filter (λ ib, ib.2 = true) (asked tr)).*1 →
  (j, false) ∈ asked tr → j ∉ written tr.
Proof.
  intros Ha Hw Hj Hin.
  rewrite Hw in Hin.
  apply list_elem_of_fmap in Hin as ([j' ok] & Heq & Hin).
  apply list_elem_of_filter in Hin as [Hok Hin].
  simpl in Heq, Hok. subst j' ok.
  assert (Hnd : NoDup (asked tr).*1) by (rewrite Ha; apply NoDup_seq).
  assert (true = false); [|done].
  by apply (NoDup_fst_functional (asked tr) j).
Qed.

Section public_surface.
Context {Ext : Type}.
Variable Sprintf : string → list Value → string.
Implicit Types (l : logger Ext) (ctx : Context) (c : LoggerCall) (s : Proc Ext).

Ltac unfold_method :=
  cbv beta iota delta
    [invoke Logger.Debug Logger.Info Logger.Warning Logger.Error Logger.Fatal
     Logger.DebugErr Logger.InfoErr Logger.WarningErr Logger.ErrorErr Logger.FatalErr
     Logger.DebugWithFields Logger.InfoWithFields Logger.WarningWithFields
     Logger.ErrorWithFields Logger.FatalWithFields
     Logger.DebugErrWithFields Logger.InfoErrWithFields Logger.WarningErrWithFields
     Logger.ErrorErrWithFields Logger.FatalErrWithFields
     Logger.log_Fatalf_err call_fatal call_level call_template fst snd].

(** Every public method is [writeLog] on the formatted message, entered
    with the provider calls made so far; the Fatal family then goes on
    to [log.Fatal]. *)
Lemma invoke_funnel l ctx c s :
  err_given c →
  ∃ s0 fields text,
    calls s0 = calls s ∧ readers s0 = readers s
    ∧ invoke Sprintf l ctx c s
      = if call_fatal c
        then (Logger.writeLog l ctx (call_level c)
                (Sprintf (call_template c).1 (call_template c).2) fields ;;;
              log_Fatal text) s0
        else Logger.writeLog l ctx (call_level c)
               (Sprintf (call_template c).1 (call_template c).2) fields s0.
Proof.
  intros Herr.
  destruct c; unfold err_given in Herr; cbn [call_err] in Herr;
    try (destruct err as [e|]; [clear Herr|done]);
    unfold_method;
    unfold Logger.error_fields, err_Error, Logger.mergeFields;
    try (unfold bind at 1; unfold bind at 1; unfold ret at 1; unfold lift at 1;
         cbn [Fields_lit1 make_Fields mach calls readers]);
    try (unfold bind at 1; unfold lift at 1; cbn [mach calls readers];
         destruct (MergeFields _ _ _ _) as [allFields m2]);
    eexists _, _, _; (split; [|split; [|reflexivity]]); reflexivity.
  Unshelve. all: exact "".
Qed.

(** With a nil error an [...Err...] method panics on [err.Error()], before
    anything else happens. *)
Lemma invoke_nil_error l ctx c s :
  ¬ err_given c →
  invoke Sprintf l ctx c s
  = Panicked "runtime error: invalid memory address or nil pointer dereference" s.
Proof.
  intros Hnil.
  destruct c; unfold err_given in Hnil; cbn [call_err] in Hnil;
    try (exfalso; by apply Hnil);
    (destruct err as [e|]; [exfalso; by apply Hnil|]); reflexivity.
Qed.

End public_surface.

Lemma err_given_dec (c : LoggerCall) : {err_given c} + {¬ err_given c}.
Proof.
  unfold err_given. destruct (call_err c) as [[e|]|].
  - by left.
  - right. intros H. by apply H.
  - by left.
Qed.

Section dispatch_claims.
Context {Ext : Type}.
Variable Sprintf : string → list Value → string.
Implicit Types (l : logger Ext) (ctx : Context) (level : Level)
  (fields : Fields) (message : string) (c : LoggerCall) (s : Proc Ext).

(** C1.  One [writeLog] returns after asking every provider of the
    logger's list [ShouldLog], once each and in list order; it invokes
    [Write] on exactly the providers that answered true, in that same
    order, and a provider that answered false is not written to.  Every
    call carries the level, the message and the extracted fields, and
    every recorded result is the one the provider at that position gave.
    When the providers answer [ShouldLog] without touching the machine,
    the machine ends as the [Write]s of the accepting providers, run in
    list order on the extracted fields, leave it. *)
Theorem writeLog_writes_exactly_to_accepting l ctx level message fields s :
  ∃ s' tr,
    Logger.writeLog l ctx level message fields s = Returned tt s'
    ∧ calls s' = calls s ++ tr
    ∧ (asked tr).*1 = seq 0 (length (providers l))
    ∧ written tr = (filter (λ ib, ib.2 = true) (asked tr)).*1
    ∧ (∀ j, (j, false) ∈ asked tr → j ∉ written tr)
    ∧ Forall (carries ctx level message
                (ExtractFieldsFromContext (fieldsHandler l) ctx fields (mach s)).1) tr
    ∧ Forall (genuine (providers l)) tr
    ∧ (∀ accepts : LoggerProvider Ext → bool,
         (∀ p m, p ∈ providers l → ShouldLog p ctx level m = (accepts p, m)) →
         mach s'
         = foldl (λ m p,
                    (Write p ctx level message
                       (ExtractFieldsFromContext (fieldsHandler l) ctx fields (mach s)).1
                       m).2)
             (ExtractFieldsFromContext (fieldsHandler l) ctx fields (mach s)).2
             (filter (λ p, accepts p = true) (providers l))).
Proof.
  destruct (writeLog_dispatch l ctx level message fields s)
    as (s' & tr & Hrun & Hc & Hr & Ha & Hw & Hf & Hg).
  exists s', tr. repeat split; try done.
  - intros j Hj. by eapply refused_not_written.
  - intros accepts Hpure.
    destruct (writeLog_machine l ctx level message fields s accepts Hpure)
      as (s'' & Hrun' & Hm).
    rewrite Hrun in Hrun'. by injection Hrun' as <-.
Qed.

(** C2.  Take any public logging method, any arguments and any list of
    providers, and let [tr] be the provider calls the invocation makes.
    If some provider's [Write] reported an error, the method still ends
    as it always does, handing nothing to its caller (it returns, or, in
    the Fatal family, exits), and every provider later in the list was
    asked and, if it accepted, written to with the same record. *)
Theorem write_errors_are_swallowed l ctx c s :
  ∃ tr,
    calls (final (invoke Sprintf l ctx c s)) = calls s ++ tr
    ∧ ∀ i fields failure,
        CallWrite i ctx (call_level c)
          (Sprintf (call_template c).1 (call_template c).2) fields (Some failure) ∈ tr →
        (∃ s', invoke Sprintf l ctx c s
               = if call_fatal c then Exited 1 s' else Returned tt s')
        ∧ ∀ j, i < j → j < length (providers l) →
            ∃ ok, CallShouldLog j ctx (call_level c) ok ∈ tr
                  ∧ (ok = true →
                     ∃ e, CallWrite j ctx (call_level c)
                            (Sprintf (call_template c).1 (call_template c).2) fields e ∈ tr).
Proof.
  destruct (err_given_dec c) as [Herr|Hnil].
  2: { exists []. rewrite (invoke_nil_error Sprintf l ctx c s Hnil).
       cbn [final]. split; [by rewrite app_nil_r|].
       intros i fields failure Hin. by apply elem_of_nil in Hin. }
  destruct (invoke_funnel Sprintf l ctx c s Herr)
    as (s0 & fields0 & text & Hc0 & Hr0 & Hinv).
  destruct (writeLog_dispatch l ctx (call_level c)
              (Sprintf (call_template c).1 (call_template c).2) fields0 s0)
    as (s1 & tr & Hrun & Hc & Hr & Ha & Hw & Hf & Hg).
  set (allFields := (ExtractFieldsFromContext (fieldsHandler l) ctx fields0 (mach s0)).1) in *.
  assert (Hend : ∃ s', invoke Sprintf l ctx c s
                       = (if call_fatal c then Exited 1 s' else Returned tt s')
                       ∧ calls s' = calls s1).
  { rewrite Hinv. destruct (call_fatal c).
    - eexists. unfold bind. rewrite Hrun. split; reflexivity.
    - by exists s1. }
  destruct Hend as (s' & Hend & Hcalls).
  exists tr. split.
  { rewrite Hend. destruct (call_fatal c); cbn [final]; by rewrite Hcalls, Hc, Hc0. }
  intros i fields failure Hin. split; [by exists s'|].
  assert (fields = allFields) as ->.
  { rewrite Forall_forall in Hf. by destruct (Hf _ Hin) as (_ & _ & _ & ->). }
  intros j _ Hj.
  destruct (everyone_asked tr ctx (call_level c) _ allFields _ j Ha Hf Hj) as [ok Hok].
  exists ok. split; [done|]. intros ->.
  eapply accepted_is_written; [done..|]. apply asked_elem. eauto.
Qed.


End dispatch_claims.

Lemma Fields_lit1_store {Ext} (k : string) (v : Value) (m : Machine Ext) :
  ∃ m1, Fields_lit1 k v m = (Some (length (heap m)), m1)
        ∧ heap m1 = heap m ++ [{[k := v]}].
Proof.
  eexists. split; [reflexivity|].
  rewrite (mapassign_fresh (heap m) ∅); [|done].
  by rewrite insert_empty.
Qed.

Section err_with_fields.
Context {Ext : Type}.
Variable Sprintf : string → list Value → string.
Implicit Types (l : logger Ext) (ctx : Context) (c : LoggerCall) (s : Proc Ext).

(** C4.  An [...ErrWithFields] method called with a non-nil error builds
    the one-entry map [{error: err.Error()}] and hands [writeLog] what the
    handler's [MergeFields] returns for the explicit fields as base and
    that map as overlay.  With the package's own handler the delivered
    map is the explicit fields with [error] set to the error's message,
    also when the explicit fields had an [error] entry; the explicit
    fields are not changed. *)
Theorem ErrWithFields_error_overlays_fields l ctx c (e : string) (fields : Fields) s :
  call_err c = Some (Some e) → call_fields c = Some fields →
  ∃ overlay m1 allFields m2,
    Fields_lit1 "error" (VString e) (mach s) = (overlay, m1)
    ∧ deref (heap m1) overlay = {["error" := VString e]}
    ∧ MergeFields (fieldsHandler l) fields overlay m1 = (allFields, m2)
    ∧ invoke Sprintf l ctx c s
      = (if call_fatal c
         then Logger.writeLog l ctx (call_level c)
                (Sprintf (call_template c).1 (call_template c).2) allFields ;;;
              Logger.log_Fatalf_err
                (Sprintf (call_template c).1 (call_template c).2) (Some e)
         else Logger.writeLog l ctx (call_level c)
                (Sprintf (call_template c).1 (call_template c).2) allFields)
          (mkProc m2 (calls s) (readers s))
    ∧ (∀ key, fieldsHandler l = NewFieldsHandler key →
              valid (heap (mach s)) fields →
              deref (heap m2) allFields
              = <["error" := VString e]> (deref (heap (mach s)) fields)
              ∧ deref (heap m2) allFields !! "error" = Some (VString e)
              ∧ deref (heap m2) fields = deref (heap (mach s)) fields).
Proof.
  intros He Hfields.
  destruct (Fields_lit1_store "error" (VString e) (mach s)) as (m1 & Hlit & Hm1).
  destruct (MergeFields (fieldsHandler l) fields (Some (length (heap (mach s)))) m1)
    as [allFields m2] eqn:Hmerge.
  exists (Some (length (heap (mach s)))), m1, allFields, m2.
  split; [done|].
  split; [rewrite Hm1; apply deref_fresh|].
  split; [done|].
  split.
  { destruct c; simplify_eq/=;
      cbv beta iota delta
        [Logger.DebugErrWithFields Logger.InfoErrWithFields
         Logger.WarningErrWithFields Logger.ErrorErrWithFields
         Logger.FatalErrWithFields];
      unfold Logger.error_fields, err_Error, Logger.mergeFields;
      unfold bind at 1; unfold bind at 1; unfold ret at 1; unfold lift at 1;
      rewrite Hlit; unfold bind at 1; unfold lift at 1; cbn [mach calls readers];
      by rewrite Hmerge. }
  intros key Hfh Hv.
  rewrite Hfh in Hmerge. cbn [MergeFields NewFieldsHandler] in Hmerge.
  assert (Hv1 : valid (heap m1) fields).
  { destruct fields as [q|]; [|done]. simpl in *.
    rewrite Hm1, length_app. lia. }
  assert (Ho1 : valid (heap m1) (Some (length (heap (mach s))))).
  { simpl. rewrite Hm1, length_app. simpl. lia. }
  destruct (MergeFields_store fields _ m1 Hv1 Ho1) as (m' & Hrun & Hm').
  rewrite Hrun in Hmerge. injection Hmerge as <- <-.
  assert (Hbase : deref (heap m1) fields = deref (heap (mach s)) fields).
  { rewrite Hm1. by apply deref_app_valid. }
  assert (Hres : deref (heap m') (Some (length (heap m1)))
                 = <["error" := VString e]> (deref (heap (mach s)) fields)).
  { rewrite Hm', deref_fresh, Hbase.
    rewrite Hm1 at 1. rewrite deref_fresh.
    by rewrite insert_union_singleton_l. }
  split; [done|]. split.
  - rewrite Hres. apply lookup_insert_eq.
  - rewrite Hm'. rewrite deref_app_valid by done. done.
Qed.

End err_with_fields.

Section console_logger.
Context {Ext : Type} {tables : PrintTables}.

(** C9.  [Write] of the console provider reports no error, whatever it
    is given.  So in a logger built by [NewLoggerDefault] the dispatcher
    never sees a failed [Write]: every [writeLog] returns and none of the
    [Write] calls it made reported an error. *)
Theorem console_Write_never_fails (p : ProviderConfig) (ctx : Context)
    (level : Level) (message : string) (fields : Fields) :
  (∀ m : Machine Ext, (fmtProvider.Write p ctx level message fields m).1 = None)
  ∧ (∀ (fh : FieldsHandler Ext) (s : Proc Ext),
       ∃ s' tr,
         Logger.writeLog (NewLoggerDefault p fh) ctx level message fields s
         = Returned tt s'
         ∧ calls s' = calls s ++ tr
         ∧ no_write_failed tr).
Proof.
  split; [intros m; apply fmtProvider_Write_nil|].
  intros fh s.
  destruct (writeLog_dispatch (NewLoggerDefault p fh) ctx level message fields s)
    as (s' & tr & Hrun & Hc & Hr & Ha & Hw & Hf & Hg).
  exists s', tr. split; [done|]. split; [done|].
  unfold no_write_failed. eapply Forall_impl; [exact Hg|].
  intros [j c lv ok|j c lv msg f e]; [done|].
  intros (provider & m & Hj & He). cbn [NewLoggerDefault providers] in Hj.
  destruct j as [|j]; simpl in Hj; [|done].
  injection Hj as <-. rewrite <- He. apply fmtProvider_Write_nil.
Qed.

End console_logger.

(** * The statements at sample inputs *)

Section at_samples.
#[local] Existing Instance latin1_only.

(** Spec, testable property 2: merging {a:1, b:2} with {b:3, c:4}. *)
Lemma MergeFields_overlay_wins_witness :
  valid (heap store_ab) (Some 0) ∧ valid (heap store_ab) (Some 1)
  ∧ ∃ r m',
      fieldsHandler.MergeFields (Some 0) (Some 1) store_ab = (Some r, m')
      ∧ deref (heap m') (Some r) = {[ "a" := VInt 1; "b" := VInt 3; "c" := VInt 4 ]}
      ∧ deref (heap m') (Some 0) = {[ "a" := VInt 1; "b" := VInt 2 ]}
      ∧ deref (heap m') (Some 1) = {[ "b" := VInt 3; "c" := VInt 4 ]}.
Proof.
  assert (H0 : valid (heap store_ab) (Some 0)) by (simpl; lia).
  assert (H1 : valid (heap store_ab) (Some 1)) by (simpl; lia).
  split; [exact H0|]. split; [exact H1|].
  destruct (MergeFields_overlay_wins (Some 0) (Some 1) store_ab H0 H1)
    as (r & m' & Hrun & _ & Hres & _ & _ & Hb & Ho & _).
  exists r, m'. split; [exact Hrun|].
  split; [rewrite Hres; vm_compute; reflexivity|].
  split; [rewrite Hb|rewrite Ho]; reflexivity.
Defined.

(** Spec, testable property 3: a context with trace id T against
    explicit fields {trace_id: OLD}. *)
Lemma ExtractFieldsFromContext_trace_id_witness :
  valid (heap store_misc) (Some 0)
  ∧ ctx_Value ctx_T "trace_id" = Some (VString "T")
  ∧ ∃ r m',
      fieldsHandler.ExtractFieldsFromContext "trace_id" (Some ctx_T) (Some 0) store_misc
      = (Some r, m')
      ∧ deref (heap m') (Some r) = {[ "trace_id" := VString "T" ]}
      ∧ deref (heap m') (Some 0) = {[ "trace_id" := VString "OLD" ]}.
Proof.
  assert (H0 : valid (heap store_misc) (Some 0)) by (simpl; lia).
  assert (Hc : ctx_Value ctx_T "trace_id" = Some (VString "T")) by reflexivity.
  split; [exact H0|]. split; [exact Hc|].
  destruct (proj2 (ExtractFieldsFromContext_trace_id "trace_id" (Some 0) store_misc)
              ctx_T "T" H0 Hc)
    as (r & m' & Hrun & _ & Hres & _ & Hsame).
  exists r, m'. split; [exact Hrun|].
  split; [rewrite Hres; vm_compute; reflexivity|].
  rewrite Hsame. reflexivity.
Defined.

(** Spec, testable property 7: the console line for
    [Write(ctx, Info, hello, {user: bob})] at threshold Debug. *)
Lemma Write_line_format_witness :
  fmtProvider.ShouldLog (console_at LevelDebug) None LevelInfo = true
  ∧ (∃ m',
      fmtProvider.Write (console_at LevelDebug) None LevelInfo "hello" (Some 1) store_misc
      = (None, m')
      ∧ stdout m'
        = ["[2025-11-29 08:05:00] info " +:+ String dquote "hello"
           +:+ String dquote " {user=" +:+ String dquote "bob"
           +:+ String dquote "}" +:+ String newline ""])
  ∧ (∃ m',
      fmtProvider.Write (console_at LevelDebug) None LevelInfo "hello" (Some 0) store_count
      = (None, m')
      ∧ stdout m'
        = ["[2025-11-29 08:05:00] info " +:+ String dquote "hello"
           +:+ String dquote " {count=3}" +:+ String newline ""]).
Proof.
  assert (Hok : fmtProvider.ShouldLog (console_at LevelDebug) None LevelInfo = true)
    by reflexivity.
  split; [exact Hok|]. split.
  - destruct (Write_line_format (console_at LevelDebug) None LevelInfo "hello"
                (Some 1) store_misc Hok)
      as (block & m' & Hrun & Hout & _ & _ & _ & _ & Hfull & _).
    exists m'. split; [exact Hrun|].
    destruct Hfull as (kvs & Hperm & ->).
    { vm_compute. discriminate. }
    change (deref (heap store_misc) (Some 1))
      with ({[ "user" := VString "bob" ]} : gmap string Value) in Hperm.
    rewrite map_to_list_singleton in Hperm.
    apply Permutation_singleton_r in Hperm. subst kvs.
    rewrite Hout. reflexivity.
  - destruct (Write_line_format (console_at LevelDebug) None LevelInfo "hello"
                (Some 0) store_count Hok)
      as (block & m' & Hrun & Hout & _ & _ & _ & _ & Hfull & _).
    exists m'. split; [exact Hrun|].
    destruct Hfull as (kvs & Hperm & ->).
    { vm_compute. discriminate. }
    change (deref (heap store_count) (Some 0))
      with ({[ "count" := VInt 3 ]} : gmap string Value) in Hperm.
    rewrite map_to_list_singleton in Hperm.
    apply Permutation_singleton_r in Hperm. subst kvs.
    rewrite Hout. reflexivity.
Defined.

Lemma Write_below_threshold_noop_witness :
  (LevelDebug < cfgLevel (console_at LevelInfo))%Z
  ∧ fmtProvider.Write (console_at LevelInfo) None LevelDebug "hello" (Some 1) store_misc
    = (None, store_misc).
Proof.
  assert (H : (LevelDebug < cfgLevel (console_at LevelInfo))%Z) by reflexivity.
  split; [exact H|].
  exact (Write_below_threshold_noop (console_at LevelInfo) None LevelDebug "hello"
           (Some 1) store_misc H).
Defined.

(** Spec, testable property 4: three providers, the middle one failing. *)
Lemma write_errors_are_swallowed_witness :
  ∃ tr,
    calls (final (invoke plain_Sprintf three_stubs None (call_Info "hello" [])
                    (mkProc boot [] 0))) = tr
    ∧ CallWrite 1 None LevelInfo "hello" None (Some "disk full") ∈ tr
    ∧ (∃ s', invoke plain_Sprintf three_stubs None (call_Info "hello" [])
               (mkProc boot [] 0) = Returned tt s')
    ∧ ∃ ok, CallShouldLog 2 None LevelInfo ok ∈ tr
            ∧ (ok = true → ∃ e, CallWrite 2 None LevelInfo "hello" None e ∈ tr).
Proof.
  destruct (write_errors_are_swallowed plain_Sprintf three_stubs None
              (call_Info "hello" []) (mkProc boot [] 0))
    as (tr & Hc & Hafter).
  change (calls (mkProc boot [] 0) ++ tr) with tr in Hc.
  exists tr. split; [exact Hc|].
  assert (Hfailed : CallWrite 1 None LevelInfo "hello" None (Some "disk full") ∈ tr).
  { rewrite <- Hc. vm_compute. apply list_elem_of_In. simpl. tauto. }
  split; [exact Hfailed|].
  destruct (Hafter 1 None "disk full" Hfailed) as [Hend Hlater].
  split; [exact Hend|].
  apply (Hlater 2); simpl; lia.
Defined.


(** [ErrorErrWithFields] with explicit fields {error: old, a: 1}. *)
Lemma ErrWithFields_error_overlays_fields_witness :
  call_err (call_ErrorErrWithFields (Some "timeout") (Some 2) "save failed" [])
  = Some (Some "timeout")
  ∧ call_fields (call_ErrorErrWithFields (Some "timeout") (Some 2) "save failed" [])
    = Some (Some 2)
  ∧ ∃ allFields m2,
      invoke plain_Sprintf console_logger None
        (call_ErrorErrWithFields (Some "timeout") (Some 2) "save failed" [])
        (mkProc store_misc [] 0)
      = Logger.writeLog console_logger None LevelError "save failed" allFields
          (mkProc m2 [] 0)
      ∧ deref (heap m2) allFields = {[ "error" := VString "timeout"; "a" := VInt 1 ]}
      ∧ deref (heap m2) (Some 2) = {[ "error" := VString "old"; "a" := VInt 1 ]}.
Proof.
  split; [reflexivity|]. split; [reflexivity|].
  destruct (ErrWithFields_error_overlays_fields plain_Sprintf console_logger None
              (call_ErrorErrWithFields (Some "timeout") (Some 2) "save failed" [])
              "timeout" (Some 2) (mkProc store_misc [] 0) eq_refl eq_refl)
    as (overlay & m1 & allFields & m2 & _ & _ & _ & Hrun & Hdefault).
  exists allFields, m2. split; [exact Hrun|].
  destruct (Hdefault "trace_id" eq_refl) as (Hres & _ & Hsame).
  { simpl. lia. }
  split; [rewrite Hres; vm_compute; reflexivity|].
  rewrite Hsame. reflexivity.
Defined.


(** * Runs on sample inputs *)

(** Spec, testable property 8: no braces for a nil or an empty map. *)
Example console_line_without_fields :
  stdout (fmtProvider.Write (console_at LevelDebug) None LevelError "boom" None boot).2
  = ["[2025-11-29 08:05:00] error " +:+ String dquote "boom"
     +:+ String dquote " " +:+ String newline ""]
  ∧ stdout (fmtProvider.Write (console_at LevelDebug) None LevelFatal "boom" (Some 0)
              (set_heap [∅] boot)).2
    = ["[2025-11-29 08:05:00] critical " +:+ String dquote "boom"
       +:+ String dquote " " +:+ String newline ""].
Proof. split; vm_compute; reflexivity. Qed.

(** The order of the pairs follows the runtime's walk of the map. *)
Example console_line_field_order :
  (fmtProvider.serializeFields (Some 2) (set_seeds [0] store_misc)).1
  ≠ (fmtProvider.serializeFields (Some 2) (set_seeds [1] store_misc)).1.
Proof. vm_compute. discriminate. Qed.

(** A quote and a control character inside a string value. *)
Example quote_escapes :
  strconv_Quote (String "a" (String dquote (String newline "b")))
  = String dquote ("a\" +:+ String dquote ("\nb" +:+ String dquote "")).
Proof. vm_compute. reflexivity. Qed.

(** Beyond ASCII: the next-line control U+0085, the no-break space
    U+00A0 and the line separator U+2028 are written as escapes, the
    printable e with acute accent is copied, and a byte that starts no
    well-formed UTF-8 sequence is written in hexadecimal. *)
Example quote_beyond_ascii :
  escape (string_of_list_ascii
            (ascii_of_nat <$> [194; 133; 194; 160; 195; 169; 255; 226; 128; 168; 192; 128]))
  = "\u0085\u00a0" +:+ string_of_list_ascii (ascii_of_nat <$> [195; 169])
    +:+ "\xff\u2028\xc0\x80".
Proof. vm_compute. reflexivity. Qed.

(** Three providers, the middle one failing: all three are written to,
    in list order, and the caller gets nothing back. *)
Example fanout_three_stubs :
  invoke plain_Sprintf three_stubs None (call_Info "hello" []) (mkProc boot [] 0)
  = Returned tt
      (mkProc (set_stdout ["A"; "B"; "C"] boot)
         [ CallShouldLog 0 None LevelInfo true;
           CallWrite 0 None LevelInfo "hello" None None;
           CallShouldLog 1 None LevelInfo true;
           CallWrite 1 None LevelInfo "hello" None (Some "disk full");
           CallShouldLog 2 None LevelInfo true;
           CallWrite 2 None LevelInfo "hello" None None ]
         0).
Proof. vm_compute. reflexivity. Qed.

(** A provider whose threshold is above the level is asked and skipped. *)
Example dispatch_skips_filtered :
  invoke plain_Sprintf all_failing None (call_Warning "careful" []) (mkProc boot [] 0)
  = Returned tt
      (mkProc (set_stdout ["A"] boot)
         [ CallShouldLog 0 None LevelWarn true;
           CallWrite 0 None LevelWarn "careful" None (Some "disk full");
           CallShouldLog 1 None LevelWarn false ]
         0).
Proof. vm_compute. reflexivity. Qed.

(** [FatalErr] with every provider failing: both are written to, then the
    line goes to standard error and the process exits with status 1. *)
Example fatal_after_failed_writes :
  invoke plain_Sprintf all_failing None
    (call_FatalErr (Some "db down") "boom" []) (mkProc boot [] 0)
  = Exited 1
      (mkProc
         (mkMachine [ {[ "error" := VString "db down" ]} ] ["A"; "B"]
            ["2025/11/29 08:05:00 boom: db down" +:+ String newline ""]
            (now boot) [] tt)
         [ CallShouldLog 0 None LevelFatal true;
           CallWrite 0 None LevelFatal "boom" (Some 0) (Some "disk full");
           CallShouldLog 1 None LevelFatal true;
           CallWrite 1 None LevelFatal "boom" (Some 0) (Some "no route") ]
         0).
Proof. vm_compute. reflexivity. Qed.

(** A nil error panics in the other [...Err...] methods as well. *)
Example nil_error_panics :
  invoke plain_Sprintf three_stubs None (call_InfoErr None "hello" []) (mkProc boot [] 0)
  = Panicked "runtime error: invalid memory address or nil pointer dereference" (mkProc boot [] 0).
Proof. reflexivity. Qed.

(** With a context at hand the providers get a copy that carries the
    trace identifier; the caller's map is left alone. *)
Example trace_id_reaches_console :
  match invoke plain_Sprintf console_logger (Some ctx_T)
          (call_InfoWithFields (Some 1) "hello" []) (mkProc store_misc [] 0) with
  | Returned _ s' =>
      stdout (mach s')
      = ["[2025-11-29 08:05:00] info " +:+ String dquote "hello"
         +:+ String dquote " {user=" +:+ String dquote "bob"
         +:+ String dquote " trace_id=" +:+ String dquote "T"
         +:+ String dquote "}" +:+ String newline ""]
      ∧ heap (mach s') !! 1 = Some {[ "user" := VString "bob" ]}
  | _ => False
  end.
Proof. vm_compute. split; reflexivity. Qed.

End at_samples.

(** * Further properties *)

(** ** The fields handler, beyond merge and trace id *)

Section handler_more.
Context {Ext : Type}.
Implicit Types (m : Machine Ext) (f base overlay : Fields).

(** [maps.Copy] touches nothing but the entries of its destination. *)
Lemma maps_Copy_frame (p : nat) f m :
  length (heap (maps_Copy p f m)) = length (heap m)
  ∧ stdout (maps_Copy p f m) = stdout m ∧ stderr (maps_Copy p f m) = stderr m
  ∧ now (maps_Copy p f m) = now m ∧ ext (maps_Copy p f m) = ext m.
Proof.
  split; [rewrite maps_Copy_heap; apply length_alter|].
  unfold maps_Copy, range_map.
  generalize (range_order (hd 0 (seeds m)) (map_to_list (deref (heap m) f))).
  intros kvs.
  assert (H : ∀ m0 : Machine Ext,
    let m' := foldl (λ acc kv, mapassign p kv.1 kv.2 acc) m0 kvs in
    stdout m' = stdout m0 ∧ stderr m' = stderr m0 ∧ now m' = now m0 ∧ ext m' = ext m0).
  { induction kvs as [|[k v] kvs IH]; intros m0; simpl; [done|].
    apply (IH (mapassign p k v m0)). }
  apply (H (set_seeds (tl (seeds m)) m)).
Qed.

(** The store after [ExtractFieldsFromContext] with a context at hand:
    one more map, the entries of [fields] with the trace entry on top. *)
Lemma ExtractFieldsFromContext_store (key : string) (cx : gmap string Value) f m :
  valid (heap m) f →
  ∃ m',
    fieldsHandler.ExtractFieldsFromContext key (Some cx) f m
    = (Some (length (heap m)), m')
    ∧ heap m' = heap m ++ [trace_entry key (Some cx) (deref (heap m) f)].
Proof.
  intros Hf.
  set (h := heap m).
  set (m1 := (make_Fields m).2).
  assert (H1 : heap m1 = h ++ [∅]) by done.
  pose proof (maps_Copy_fresh h ∅ f m1 H1 Hf) as H2.
  rewrite (right_id_L ∅ (∪)) in H2.
  destruct (ctx_Value cx key) as [[traceID|z|b|repr]|] eqn:E.
  1: { exists (mapassign (length h) "trace_id" (VString traceID)
                 (maps_Copy (length h) f m1)).
       split.
       - unfold fieldsHandler.ExtractFieldsFromContext. by rewrite E.
       - unfold trace_entry. rewrite E. by apply mapassign_fresh. }
  all: exists (maps_Copy (length h) f m1); split;
    [unfold fieldsHandler.ExtractFieldsFromContext; by rewrite E
    |unfold trace_entry; by rewrite E].
Qed.

(** X1.  With a context that has no string under the trace key (no value
    at all, or a value of another type), [ExtractFieldsFromContext]
    still copies: it returns a map that was not in the store, with the
    entries of [fields] and nothing else, non-nil even for nil [fields];
    the maps that existed are as before. *)
Theorem ExtractFieldsFromContext_without_trace_id (key : string)
    (cx : gmap string Value) f m :
  valid (heap m) f →
  (∀ traceID, ctx_Value cx key ≠ Some (VString traceID)) →
  ∃ r m',
    fieldsHandler.ExtractFieldsFromContext key (Some cx) f m = (Some r, m')
    ∧ heap m !! r = None
    ∧ Some r ≠ f
    ∧ deref (heap m') (Some r) = deref (heap m) f
    ∧ (∀ q, q ≠ r → heap m' !! q = heap m !! q).
Proof.
  intros Hf Hno.
  destruct (ExtractFieldsFromContext_store key cx f m Hf) as (m' & Hrun & Hm').
  exists (length (heap m)), m'. split; [done|].
  split; [by apply lookup_ge_None_2|].
  split.
  { destruct f as [q|]; [|done]. simpl in Hf. intros [= Heq]. lia. }
  split.
  - rewrite Hm', deref_fresh. unfold trace_entry.
    destruct (ctx_Value cx key) as [[traceID|z|b|repr]|] eqn:E; try done.
    by destruct (Hno traceID).
  - intros q Hq. rewrite Hm'. by apply lookup_fresh_ne.
Qed.

(** X2.  A nil side contributes nothing to [MergeFields]: merging nil
    with [f], in either order, gives a new map with the entries of [f],
    which is not [f] itself. *)
Theorem MergeFields_nil_side f m :
  valid (heap m) f →
  ∃ r m1 m2,
    fieldsHandler.MergeFields None f m = (Some r, m1)
    ∧ fieldsHandler.MergeFields f None m = (Some r, m2)
    ∧ deref (heap m1) (Some r) = deref (heap m) f
    ∧ deref (heap m2) (Some r) = deref (heap m) f
    ∧ Some r ≠ f
    ∧ heap m !! r = None.
Proof.
  intros Hf.
  destruct (MergeFields_store None f m I Hf) as (m1 & Hrun1 & Hm1).
  destruct (MergeFields_store f None m Hf I) as (m2 & Hrun2 & Hm2).
  exists (length (heap m)), m1, m2.
  split; [done|]. split; [done|].
  split; [rewrite Hm1, deref_fresh; simpl; by rewrite (right_id_L ∅ (∪))|].
  split; [rewrite Hm2, deref_fresh; simpl; by rewrite (left_id_L ∅ (∪))|].
  split; [|by apply lookup_ge_None_2].
  destruct f as [q|]; [|done]. simpl in Hf. intros [= Heq]. lia.
Qed.

(** X3.  Merges compose: merging [a] with [b] and the result with [c]
    gives the same entries as merging [a] with the merge of [b] and [c];
    and merging a map with itself gives its entries. *)
Theorem MergeFields_assoc_idemp (a b c : Fields) m :
  valid (heap m) a → valid (heap m) b → valid (heap m) c →
  ∃ ab m1 abc m2 bc m3 abc' m4 aa m5,
    fieldsHandler.MergeFields a b m = (ab, m1)
    ∧ fieldsHandler.MergeFields ab c m1 = (abc, m2)
    ∧ fieldsHandler.MergeFields b c m = (bc, m3)
    ∧ fieldsHandler.MergeFields a bc m3 = (abc', m4)
    ∧ deref (heap m2) abc = deref (heap m4) abc'
    ∧ fieldsHandler.MergeFields a a m = (aa, m5)
    ∧ deref (heap m5) aa = deref (heap m) a.
Proof.
  intros Ha Hb Hc.
  assert (Hgrow : ∀ (f : Fields) x, valid (heap m) f → valid (heap m ++ [x]) f).
  { intros [q|] x; [|done]. simpl. rewrite length_app. simpl. lia. }
  assert (Hnew : ∀ x : gmap string Value,
             valid (heap m ++ [x]) (Some (length (heap m)))).
  { intros x. simpl. rewrite length_app. simpl. lia. }
  destruct (MergeFields_store a b m Ha Hb) as (m1 & Hrun1 & Hm1).
  assert (Hab1 : valid (heap m1) (Some (length (heap m)))) by (rewrite Hm1; apply Hnew).
  assert (Hc1 : valid (heap m1) c) by (rewrite Hm1; by apply Hgrow).
  destruct (MergeFields_store _ c m1 Hab1 Hc1) as (m2 & Hrun2 & Hm2).
  destruct (MergeFields_store b c m Hb Hc) as (m3 & Hrun3 & Hm3).
  assert (Ha3 : valid (heap m3) a) by (rewrite Hm3; by apply Hgrow).
  assert (Hbc3 : valid (heap m3) (Some (length (heap m)))) by (rewrite Hm3; apply Hnew).
  destruct (MergeFields_store a _ m3 Ha3 Hbc3) as (m4 & Hrun4 & Hm4).
  destruct (MergeFields_store a a m Ha Ha) as (m5 & Hrun5 & Hm5).
  eexists _, m1, _, m2, _, m3, _, m4, _, m5.
  split; [exact Hrun1|]. split; [exact Hrun2|].
  split; [exact Hrun3|]. split; [exact Hrun4|].
  split.
  - assert (D1 : deref (heap m1) (Some (length (heap m)))
                 = deref (heap m) b ∪ deref (heap m) a)
      by (rewrite Hm1; apply deref_fresh).
    assert (D1c : deref (heap m1) c = deref (heap m) c)
      by (rewrite Hm1; by apply deref_app_valid).
    assert (D3 : deref (heap m3) (Some (length (heap m)))
                 = deref (heap m) c ∪ deref (heap m) b)
      by (rewrite Hm3; apply deref_fresh).
    assert (D3a : deref (heap m3) a = deref (heap m) a)
      by (rewrite Hm3; by apply deref_app_valid).
    rewrite Hm2, Hm4, !deref_fresh, D1, D1c, D3, D3a.
    by rewrite (assoc_L (∪)).
  - split; [exact Hrun5|].
    rewrite Hm5, deref_fresh. apply (idemp_L (∪)).
Qed.

(** What [MergeFields] and [ExtractFieldsFromContext] change and leave. *)
Lemma fieldsHandler_frame (key : string) (cx : gmap string Value)
    (f1 f2 : Fields) m :
  let m1 := (fieldsHandler.MergeFields f1 f2 m).2 in
  let m2 := (fieldsHandler.ExtractFieldsFromContext key (Some cx) f1 m).2 in
  (length (heap m1) = S (length (heap m))
   ∧ stdout m1 = stdout m ∧ stderr m1 = stderr m ∧ now m1 = now m ∧ ext m1 = ext m)
  ∧ (length (heap m2) = S (length (heap m))
     ∧ stdout m2 = stdout m ∧ stderr m2 = stderr m ∧ now m2 = now m ∧ ext m2 = ext m).
Proof.
  cbv zeta.
  set (m0 := (make_Fields m).2).
  assert (H0 : length (heap m0) = S (length (heap m))).
  { simpl. rewrite length_app. simpl. lia. }
  destruct (maps_Copy_frame (length (heap m)) f1 m0) as (Ha1 & Ha2 & Ha3 & Ha4 & Ha5).
  destruct (maps_Copy_frame (length (heap m)) f2
              (maps_Copy (length (heap m)) f1 m0)) as (Hb1 & Hb2 & Hb3 & Hb4 & Hb5).
  split.
  - change (fieldsHandler.MergeFields f1 f2 m).2
      with (maps_Copy (length (heap m)) f2 (maps_Copy (length (heap m)) f1 m0)).
    rewrite Hb1, Hb2, Hb3, Hb4, Hb5, Ha1, Ha2, Ha3, Ha4, Ha5. done.
  - assert (Hcases :
      (fieldsHandler.ExtractFieldsFromContext key (Some cx) f1 m).2
      = maps_Copy (length (heap m)) f1 m0
      ∨ ∃ v, (fieldsHandler.ExtractFieldsFromContext key (Some cx) f1 m).2
             = mapassign (length (heap m)) "trace_id" v
                 (maps_Copy (length (heap m)) f1 m0)).
    { unfold fieldsHandler.ExtractFieldsFromContext.
      destruct (ctx_Value cx key) as [[traceID|z|b|repr]|]; eauto. }
    destruct Hcases as [->|[v ->]].
    + rewrite Ha1, Ha2, Ha3, Ha4, Ha5. done.
    + unfold mapassign. cbn [heap stdout stderr now ext set_heap].
      rewrite length_alter, Ha1, Ha2, Ha3, Ha4, Ha5. done.
Qed.

(** X4.  The handler works on the store of maps alone.  [MergeFields]
    and, with a context at hand, [ExtractFieldsFromContext] add exactly
    one map to it, whatever they are given; neither writes to standard
    output or standard error, and the clock and the providers' own state
    stay as they are. *)
Theorem fieldsHandler_allocates_one_map (key : string) (cx : gmap string Value)
    (f1 f2 : Fields) m :
  let m1 := (fieldsHandler.MergeFields f1 f2 m).2 in
  let m2 := (fieldsHandler.ExtractFieldsFromContext key (Some cx) f1 m).2 in
  (length (heap m1) = S (length (heap m))
   ∧ stdout m1 = stdout m ∧ stderr m1 = stderr m ∧ now m1 = now m ∧ ext m1 = ext m)
  ∧ (length (heap m2) = S (length (heap m))
     ∧ stdout m2 = stdout m ∧ stderr m2 = stderr m ∧ now m2 = now m ∧ ext m2 = ext m).
Proof. exact (fieldsHandler_frame key cx f1 f2 m). Qed.

End handler_more.

(** ** The public surface, beyond fan-out *)

Lemma append_assoc (s1 s2 s3 : string) : (s1 +:+ s2) +:+ s3 = s1 +:+ (s2 +:+ s3).
Proof.
  induction s1 as [|a s1 IH]; [done|].
  change (String a ((s1 +:+ s2) +:+ s3) = String a (s1 +:+ (s2 +:+ s3))).
  by rewrite IH.
Qed.

Lemma filter_none {A} (P : A → Prop) `{!∀ x, Decision (P x)} (l : list A) :
  Forall (λ x, ¬ P x) l → filter P l = [].
Proof.
  induction 1 as [|x l Hx _ IH]; [done|].
  rewrite filter_cons. by rewrite decide_False, IH.
Qed.

Section public_more.
Context {Ext : Type}.
Variable Sprintf : string → list Value → string.
Implicit Types (l : logger Ext) (ctx : Context) (c : LoggerCall) (s : Proc Ext).

Ltac unfold_call :=
  cbv beta iota delta
    [invoke Logger.Debug Logger.Info Logger.Warning Logger.Error Logger.Fatal
     Logger.DebugErr Logger.InfoErr Logger.WarningErr Logger.ErrorErr Logger.FatalErr
     Logger.DebugWithFields Logger.InfoWithFields Logger.WarningWithFields
     Logger.ErrorWithFields Logger.FatalWithFields
     Logger.DebugErrWithFields Logger.InfoErrWithFields Logger.WarningErrWithFields
     Logger.ErrorErrWithFields Logger.FatalErrWithFields
     Logger.log_Fatalf_err fatal_text call_err call_fatal call_level
     call_template fst snd].

(** The funnel with the text of the Fatal family spelled out. *)
Lemma invoke_funnel_text l ctx c s :
  err_given c →
  ∃ s0 fields,
    calls s0 = calls s ∧ readers s0 = readers s
    ∧ invoke Sprintf l ctx c s
      = if call_fatal c
        then (Logger.writeLog l ctx (call_level c)
                (Sprintf (call_template c).1 (call_template c).2) fields ;;;
              log_Fatal (fatal_text Sprintf c)) s0
        else Logger.writeLog l ctx (call_level c)
               (Sprintf (call_template c).1 (call_template c).2) fields s0.
Proof.
  intros Herr.
  destruct c; unfold err_given in Herr; cbn [call_err] in Herr;
    try (destruct err as [e|]; [clear Herr|done]);
    unfold_call;
    unfold Logger.error_fields, err_Error, Logger.mergeFields;
    try (unfold bind at 1; unfold bind at 1; unfold ret at 1; unfold lift at 1;
         cbn [Fields_lit1 make_Fields mach calls readers]);
    try (unfold bind at 1; unfold lift at 1; cbn [mach calls readers];
         destruct (MergeFields _ _ _ _) as [allFields m2]);
    eexists _, _; (split; [|split; [|reflexivity]]); reflexivity.
Qed.

(** X5.  An [...Err...] method given a nil error panics on [err.Error()]
    with the runtime's nil dereference, and it does so before the lock is
    taken and before the handler or any provider is called: the call ends
    in the process it started in, with no provider call made, no map
    allocated and nothing printed.  This holds at every level, the Fatal
    family included, and whatever the providers and the handler are,
    since none of them is reached. *)
Theorem nil_error_panics_before_dispatch l ctx c s :
  ¬ err_given c →
  call_err c = Some None
  ∧ invoke Sprintf l ctx c s
    = Panicked "runtime error: invalid memory address or nil pointer dereference" s
  ∧ calls (final (invoke Sprintf l ctx c s)) = calls s
  ∧ mach (final (invoke Sprintf l ctx c s)) = mach s
  ∧ readers (final (invoke Sprintf l ctx c s)) = readers s.
Proof.
  intros Hnil.
  rewrite (invoke_nil_error Sprintf l ctx c s Hnil). cbn [final].
  split; [|done].
  unfold err_given in Hnil.
  destruct (call_err c) as [[text|]|]; [|done|]; exfalso; by apply Hnil.
Qed.

(** X6.  Every public call ends holding as many read locks on the
    logger's mutex as when it started: [writeLog] releases the lock it
    took before a Fatal method exits, and a call that panics on a nil
    error has not taken it. *)
Theorem public_call_releases_lock l ctx c s :
  readers (final (invoke Sprintf l ctx c s)) = readers s.
Proof.
  destruct (err_given_dec c) as [Herr|Hnil].
  2: { by rewrite (invoke_nil_error Sprintf l ctx c s Hnil). }
  destruct (invoke_funnel_text l ctx c s Herr) as (s0 & fields & _ & Hr0 & ->).
  destruct (writeLog_dispatch l ctx (call_level c)
              (Sprintf (call_template c).1 (call_template c).2) fields s0)
    as (s1 & tr & Hrun & _ & Hr & _).
  destruct (call_fatal c).
  - unfold bind. rewrite Hrun. cbn [log_Fatal final with_stderr_line readers].
    by rewrite Hr.
  - rewrite Hrun. cbn [final]. by rewrite Hr.
Qed.


(** The funnel with the package's own handler: what [writeLog] is given. *)
Lemma invoke_funnel_default (key : string) l ctx c s :
  fieldsHandler l = NewFieldsHandler key →
  err_given c →
  call_fields_valid (heap (mach s)) c →
  ∃ s0 fields,
    calls s0 = calls s
    ∧ invoke Sprintf l ctx c s
      = (if call_fatal c
         then (Logger.writeLog l ctx (call_level c)
                 (Sprintf (call_template c).1 (call_template c).2) fields ;;;
               log_Fatal (fatal_text Sprintf c)) s0
         else Logger.writeLog l ctx (call_level c)
                (Sprintf (call_template c).1 (call_template c).2) fields s0)
    ∧ valid (heap (mach s0)) fields
    ∧ deref (heap (mach s0)) fields
      = error_entry c (explicit_entries (heap (mach s)) c)
    ∧ (∀ q, q < length (heap (mach s)) → heap (mach s0) !! q = heap (mach s) !! q).
Proof.
  intros Hfh Herr Hv.
  destruct c; unfold err_given in Herr; cbn [call_err] in Herr;
    unfold call_fields_valid in Hv; cbn [call_fields] in Hv;
    try (destruct err as [e|]; [clear Herr|done]);
    try (destruct (Fields_lit1_store "error" (VString e) (mach s))
           as (m1 & Hlit & Hm1);
         assert (Hold1 : ∀ q, q < length (heap (mach s)) →
                              heap m1 !! q = heap (mach s) !! q)
           by (intros q Hq; rewrite Hm1; by apply lookup_app_l)).
  (* plain *)
  1-5: (exists s, None; repeat split; done).
  (* with an error *)
  1-5: (exists (mkProc m1 (calls s) (readers s)), (Some (length (heap (mach s))));
        split; [done|]; split;
        [unfold_call; unfold Logger.error_fields, err_Error;
         unfold bind at 1; unfold bind at 1; unfold ret at 1; unfold lift at 1;
         by rewrite Hlit|];
        cbn [mach]; split; [simpl; rewrite Hm1, length_app; simpl; lia|];
        split; [|done];
        rewrite Hm1, deref_fresh; unfold error_entry, explicit_entries;
        cbn [call_err call_fields]; by rewrite insert_empty).
  (* with fields *)
  1-5: (exists s, fields; repeat split; done).
  (* with an error and fields *)
  all: assert (Hv1 : valid (heap m1) fields)
         by (destruct fields as [q|]; [|done]; simpl in *;
             rewrite Hm1, length_app; lia);
       assert (Ho1 : valid (heap m1) (Some (length (heap (mach s)))))
         by (simpl; rewrite Hm1, length_app; simpl; lia);
       destruct (MergeFields_store fields _ m1 Hv1 Ho1) as (m2 & Hrun & Hm2);
       exists (mkProc m2 (calls s) (readers s)), (Some (length (heap m1)));
       split; [done|]; split;
       [unfold_call; unfold Logger.error_fields, err_Error, Logger.mergeFields;
        unfold bind at 1; unfold bind at 1; unfold ret at 1; unfold lift at 1;
        rewrite Hlit; unfold bind at 1; unfold lift at 1; cbn [mach calls readers];
        rewrite Hfh; cbn [MergeFields NewFieldsHandler]; by rewrite Hrun|];
       cbn [mach]; split; [simpl; rewrite Hm2, length_app; simpl; lia|];
       split;
       [rewrite Hm2, deref_fresh; unfold error_entry, explicit_entries;
        cbn [call_err call_fields];
        rewrite Hm1 at 1; rewrite deref_fresh;
        rewrite Hm1; rewrite deref_app_valid by done;
        by rewrite insert_union_singleton_l
       |intros q Hq; rewrite Hm2;
        rewrite lookup_app_l by (rewrite Hm1, length_app; lia);
        by apply Hold1].
Qed.

End public_more.

Section record_more.
Context {Ext : Type}.
Variable Sprintf : string → list Value → string.
Implicit Types (l : logger Ext) (ctx : Context) (c : LoggerCall) (s : Proc Ext).

(** What the package's handler extracts, in one statement for a nil and
    a non-nil context. *)
Lemma extract_default (key : string) ctx (fields : Fields) (m : Machine Ext) :
  valid (heap m) fields →
  ∃ allFields m0,
    ExtractFieldsFromContext (NewFieldsHandler key) ctx fields m = (allFields, m0)
    ∧ allFields = match ctx with
                  | None => fields
                  | Some _ => Some (length (heap m))
                  end
    ∧ deref (heap m0) allFields = trace_entry key ctx (deref (heap m) fields)
    ∧ (∀ q, q < length (heap m) → heap m0 !! q = heap m !! q)
    ∧ stdout m0 = stdout m ∧ stderr m0 = stderr m ∧ now m0 = now m.
Proof.
  intros Hv. destruct ctx as [cx|].
  - destruct (ExtractFieldsFromContext_store key cx fields m Hv) as (m0 & Hrun & Hm0).
    exists (Some (length (heap m))), m0.
    destruct (fieldsHandler_frame key cx fields fields m) as (_ & _ & Ho & He & Hn & _).
    cbv zeta in Ho, He, Hn.
    cbn [ExtractFieldsFromContext NewFieldsHandler].
    rewrite Hrun in Ho, He, Hn. cbn [snd] in Ho, He, Hn.
    split; [done|]. split; [done|].
    split; [rewrite Hm0; apply deref_fresh|].
    split; [intros q Hq; rewrite Hm0; by apply lookup_app_l|done].
  - exists fields, m. by repeat split.
Qed.

(** X8.  The entries of a record, with the package's own handler: the
    explicit fields, then the [error] entry of the error argument, then
    the [trace_id] entry of the context, each later one winning over the
    earlier ones.  That is the content of the map [writeLog] extracts and
    starts the fan-out with; the maps the caller had are as before. *)
Theorem record_entries_precedence (key : string) l ctx c s :
  fieldsHandler l = NewFieldsHandler key →
  err_given c →
  call_fields_valid (heap (mach s)) c →
  ∃ s0 fields allFields m0,
    calls s0 = calls s
    ∧ invoke Sprintf l ctx c s
      = (if call_fatal c
         then (Logger.writeLog l ctx (call_level c)
                 (Sprintf (call_template c).1 (call_template c).2) fields ;;;
               log_Fatal (fatal_text Sprintf c)) s0
         else Logger.writeLog l ctx (call_level c)
                (Sprintf (call_template c).1 (call_template c).2) fields s0)
    ∧ ExtractFieldsFromContext (fieldsHandler l) ctx fields (mach s0)
      = (allFields, m0)
    ∧ deref (heap m0) allFields
      = trace_entry key ctx (error_entry c (explicit_entries (heap (mach s)) c))
    ∧ (∀ q, q < length (heap (mach s)) → heap m0 !! q = heap (mach s) !! q).
Proof.
  intros Hfh Herr Hv.
  destruct (invoke_funnel_default Sprintf key l ctx c s Hfh Herr Hv)
    as (s0 & fields & Hc0 & Hinv & Hv0 & Hd0 & Hold0).
  destruct (extract_default key ctx fields (mach s0) Hv0)
    as (allFields & m0 & Hrun & _ & Hd & Hold & _).
  exists s0, fields, allFields, m0.
  split; [done|]. split; [done|].
  split; [by rewrite Hfh|].
  split; [by rewrite Hd, Hd0|].
  intros q Hq.
  assert (Hq0 : q < length (heap (mach s0))).
  { apply lookup_lt_is_Some. rewrite Hold0 by done. by apply lookup_lt_is_Some. }
  rewrite Hold by done. by apply Hold0.
Qed.

(** X9.  All providers are handed one and the same [Fields] value.  With
    the package's own handler and a nil context it is the very value the
    caller passed, with no copy in between; with a context it is the
    address of a map allocated for this record. *)
Theorem providers_share_fields_value (key : string) l ctx (level : Level)
    (message : string) (fields : Fields) s :
  fieldsHandler l = NewFieldsHandler key →
  ∃ s' tr,
    Logger.writeLog l ctx level message fields s = Returned tt s'
    ∧ calls s' = calls s ++ tr
    ∧ Forall (λ call,
                match call with
                | CallWrite _ _ _ _ given _ =>
                    given = match ctx with
                            | None => fields
                            | Some _ => Some (length (heap (mach s)))
                            end
                | CallShouldLog _ _ _ _ => True
                end) tr.
Proof.
  intros Hfh.
  destruct (writeLog_dispatch l ctx level message fields s)
    as (s' & tr & Hrun & Hc & _ & _ & _ & Hf & _).
  exists s', tr. split; [done|]. split; [done|].
  eapply Forall_impl; [exact Hf|].
  intros [j cx lv ok|j cx lv msg given e]; [done|].
  intros (_ & _ & _ & ->). rewrite Hfh.
  cbn [ExtractFieldsFromContext NewFieldsHandler].
  unfold fieldsHandler.ExtractFieldsFromContext.
  destruct ctx as [cx'|]; [|done].
  cbn [make_Fields]. by destruct (ctx_Value cx' key) as [[?|?|?|?]|].
Qed.

(** A method without error argument is [writeLog] on its fields argument
    (nil when it has none), entered in the caller's state. *)
Lemma invoke_without_error l ctx c s :
  call_err c = None →
  invoke Sprintf l ctx c s
  = (if call_fatal c
     then (Logger.writeLog l ctx (call_level c)
             (Sprintf (call_template c).1 (call_template c).2)
             (default None (call_fields c)) ;;;
           log_Fatal (Sprintf (call_template c).1 (call_template c).2)) s
     else Logger.writeLog l ctx (call_level c)
            (Sprintf (call_template c).1 (call_template c).2)
            (default None (call_fields c)) s).
Proof. intros Hnoerr. by destruct c. Qed.

(** X10.  A record that every provider turns down costs nothing: with the
    package's own handler and a nil context, a method without error
    argument, outside the Fatal family, whose level all providers refuse
    (or whose logger has no provider at all) returns with the machine
    and the lock count as they were, and no [Write] is invoked. *)
Theorem refused_record_is_free (key : string) l c s :
  fieldsHandler l = NewFieldsHandler key →
  call_err c = None →
  call_fatal c = false →
  (∀ p m, p ∈ providers l → ShouldLog p None (call_level c) m = (false, m)) →
  ∃ s' tr,
    invoke Sprintf l None c s = Returned tt s'
    ∧ mach s' = mach s
    ∧ readers s' = readers s
    ∧ calls s' = calls s ++ tr
    ∧ written tr = [].
Proof.
  intros Hfh Hnoerr Hfatal Hrefuse.
  pose proof (invoke_without_error l None c s Hnoerr) as Hinv.
  rewrite Hfatal in Hinv.
  set (fields := default None (call_fields c)) in *.
  destruct (writeLog_dispatch l None (call_level c)
              (Sprintf (call_template c).1 (call_template c).2) fields s)
    as (s' & tr & Hrun & Hc & Hr & Ha & Hw & Hf & Hg).
  destruct (writeLog_machine l None (call_level c)
              (Sprintf (call_template c).1 (call_template c).2) fields s
              (λ _, false) Hrefuse)
    as (s'' & Hrun' & Hm).
  rewrite Hrun in Hrun'. injection Hrun' as <-.
  exists s', tr. split; [by rewrite Hinv|].
  split.
  { rewrite Hm, Hfh. rewrite filter_none; [done|].
    apply Forall_forall. by intros p _. }
  split; [done|]. split; [done|].
  rewrite Hw, filter_none; [done|].
  apply Forall_forall. intros [j ok] Hin. simpl. intros ->.
  apply asked_elem in Hin as (cx & lv & Hin).
  rewrite Forall_forall in Hg. destruct (Hg _ Hin) as (p & m & Hj & Hans).
  apply list_elem_of_lookup_2 in Hj.
  rewrite Forall_forall in Hf. destruct (Hf _ Hin) as (-> & ->).
  by rewrite (Hrefuse p m Hj) in Hans.
Qed.

End record_more.

Lemma trace_pair_block {tables : PrintTables} (traceID : string) :
  "{" +:+ strings_Join [fmtProvider.pair_text ("trace_id", VString traceID)] " " +:+ "}"
  = "{trace_id=" +:+ String dquote "" +:+ escape traceID +:+ String dquote "}".
Proof.
  cbn [strings_Join]. unfold fmtProvider.pair_text. cbn [fst snd].
  unfold strconv_Quote.
  change (String dquote (escape traceID +:+ String dquote ""))
    with (String dquote "" +:+ (escape traceID +:+ String dquote "")).
  rewrite !append_assoc. reflexivity.
Qed.

Section default_logger_more.
Context {Ext : Type} {tables : PrintTables}.
Variable Sprintf : string → list Value → string.

(** X11.  The logger of [NewLoggerDefault] with the package's own handler,
    end to end.  A method without fields and without error, outside the
    Fatal family, returns; if its level is at or above the configured
    one it has put exactly one line on standard output, stamped with the
    time of the call, with the level's name, the formatted message and,
    as the only field, the trace identifier of the context when there is
    one; below the configured level it has put nothing there.  Standard
    error is not written to. *)
Theorem default_logger_console_line (key : string) (cfg : ProviderConfig)
    (ctx : Context) (c : LoggerCall) (s : Proc Ext) :
  call_err c = None → call_fields c = None → call_fatal c = false →
  ∃ s',
    invoke Sprintf (NewLoggerDefault cfg (NewFieldsHandler key)) ctx c s
    = Returned tt s'
    ∧ stdout (mach s')
      = stdout (mach s)
        ++ (if fmtProvider.ShouldLog cfg ctx (call_level c)
            then [console_line (now (mach s)) (call_level c)
                    (Sprintf (call_template c).1 (call_template c).2)
                    (trace_block key ctx)]
            else [])
    ∧ stderr (mach s') = stderr (mach s).
Proof.
  intros Hnoerr Hnofields Hfatal.
  set (l := NewLoggerDefault cfg (NewFieldsHandler key)).
  set (level := call_level c).
  set (message := Sprintf (call_template c).1 (call_template c).2).
  pose proof (invoke_without_error Sprintf l ctx c s Hnoerr) as Hinv.
  rewrite Hfatal, Hnofields in Hinv. cbn [default] in Hinv.
  fold level message in Hinv.
  assert (Hpure : ∀ (p : LoggerProvider Ext) m, p ∈ providers l →
            ShouldLog p ctx level m = (fmtProvider.ShouldLog cfg ctx level, m)).
  { intros p m Hp. apply list_elem_of_singleton in Hp. by subst p. }
  destruct (writeLog_machine l ctx level message None s
              (λ _, fmtProvider.ShouldLog cfg ctx level) Hpure)
    as (s' & Hrun & Hm).
  exists s'. split; [by rewrite Hinv|].
  destruct (extract_default key ctx None (mach s) I)
    as (allFields & m0 & Hex & _ & Hd & _ & Hout0 & Herr0 & Hnow0).
  change (ExtractFieldsFromContext (fieldsHandler l) ctx None (mach s))
    with (ExtractFieldsFromContext (NewFieldsHandler key) ctx None (mach s)) in Hm.
  rewrite Hex in Hm. cbn [fst snd] in Hm.
  change (providers l) with [NewFmtProvider (Ext:=Ext) cfg] in Hm.
  rewrite filter_cons, filter_nil in Hm.
  destruct (fmtProvider.ShouldLog cfg ctx level) eqn:Hok.
  2: { rewrite decide_False in Hm by done. cbn [foldl] in Hm.
       rewrite Hm, app_nil_r. done. }
  rewrite decide_True in Hm by done. cbn [foldl] in Hm.
  change (Write (NewFmtProvider cfg) ctx level message allFields m0)
    with (fmtProvider.Write cfg ctx level message allFields m0) in Hm.
  unfold fmtProvider.Write in Hm. rewrite Hok in Hm. cbn [negb] in Hm.
  destruct (serializeFields_block allFields m0)
    as (block & m1 & Hs & _ & Hout1 & Herr1 & Hnow1 & Hempty & Hfull & _).
  rewrite Hs in Hm. cbn [snd] in Hm.
  assert (Hblock : block = trace_block key ctx).
  { rewrite Hd in Hempty, Hfull. unfold trace_entry, trace_block in *.
    destruct ctx as [cx|]; [|by apply Hempty].
    destruct (ctx_Value cx key) as [[traceID|z|b|repr]|]; try by apply Hempty.
    destruct Hfull as (kvs & Hperm & ->).
    { apply insert_non_empty. }
    cbn [deref] in Hperm.
    rewrite insert_empty, map_to_list_singleton in Hperm.
    apply Permutation_singleton_r in Hperm. subst kvs.
    apply trace_pair_block. }
  rewrite Hm. cbn [fmtProvider.Printf set_stdout stdout stderr].
  rewrite Hout1, Hout0, Herr1, Herr0, Hnow0, Hblock. done.
Qed.

End default_logger_more.

(** ** The console provider, beyond one line *)

Section console_more.
Context {Ext : Type} {tables : PrintTables}.
Implicit Types (m : Machine Ext) (p : ProviderConfig) (ctx : Context)
  (level : Level) (fields : Fields).

(** X12.  Of the five severities a console provider accepts a final
    stretch of the list Debug, Info, Warn, Error, Fatal: all five for a
    minimum at or below Debug, none for a minimum above Fatal.  What it
    accepts at one level it accepts at every higher level. *)
Theorem ShouldLog_accepts_suffix p ctx :
  filter (λ level, fmtProvider.ShouldLog p ctx level = true) severities
  = drop (Z.to_nat (cfgLevel p)) severities
  ∧ (∀ a b, fmtProvider.ShouldLog p ctx a = true → (a ≤ b)%Z →
            fmtProvider.ShouldLog p ctx b = true).
Proof.
  split.
  - unfold severities, LevelDebug, LevelInfo, LevelWarn, LevelError, LevelFatal.
    rewrite !filter_cons, filter_nil. unfold fmtProvider.ShouldLog.
    destruct (Z.leb_spec (cfgLevel p) 0), (Z.leb_spec (cfgLevel p) 1),
      (Z.leb_spec (cfgLevel p) 2), (Z.leb_spec (cfgLevel p) 3),
      (Z.leb_spec (cfgLevel p) 4); try lia; cbn [decide_rel].
    + replace (Z.to_nat (cfgLevel p)) with 0 by lia. done.
    + replace (Z.to_nat (cfgLevel p)) with 1 by lia. done.
    + replace (Z.to_nat (cfgLevel p)) with 2 by lia. done.
    + replace (Z.to_nat (cfgLevel p)) with 3 by lia. done.
    + replace (Z.to_nat (cfgLevel p)) with 4 by lia. done.
    + rewrite drop_ge by (simpl; lia). done.
  - intros a b Ha Hab. unfold fmtProvider.ShouldLog in *.
    apply Z.leb_le. apply Z.leb_le in Ha. lia.
Qed.

(** X13.  The level names of the console line tell the five severities
    apart, and a level that is none of the five has the empty name. *)
Theorem levelStr_names (a : Level) :
  (fmtProvider.levelStr a = "" ↔ a ∉ severities)
  ∧ (∀ b : Level, a ∈ severities → b ∈ severities →
       fmtProvider.levelStr a = fmtProvider.levelStr b → a = b).
Proof.
  unfold severities. split.
  - rewrite !not_elem_of_cons. unfold fmtProvider.levelStr.
    destruct (decide (a = LevelDebug)); [split; [done|intros (?&_); done]|].
    destruct (decide (a = LevelInfo)); [split; [done|intros (_&?&_); done]|].
    destruct (decide (a = LevelWarn)); [split; [done|intros (_&_&?&_); done]|].
    destruct (decide (a = LevelError)); [split; [done|intros (_&_&_&?&_); done]|].
    destruct (decide (a = LevelFatal)); [split; [done|intros (_&_&_&_&?&_); done]|].
    split; [|done]. intros _. repeat split; try done. apply not_elem_of_nil.
  - intros b. rewrite !elem_of_cons, !elem_of_nil.
    intros [->|[->|[->|[->|[->|[]]]]]] [->|[->|[->|[->|[->|[]]]]]] Hname;
      first [reflexivity | vm_compute in Hname; discriminate Hname].
Qed.

(** X14.  [Write] only ever adds to standard output: what was there stays
    in front, one text is added when the level passes the filter and
    none when it does not.  The store of maps, standard error, the clock
    and the providers' own state are left as they were, whatever the
    fields are. *)
Theorem Write_appends_only p ctx level (message : string) fields m :
  let m' := (fmtProvider.Write p ctx level message fields m).2 in
  heap m' = heap m ∧ stderr m' = stderr m ∧ now m' = now m ∧ ext m' = ext m
  ∧ ∃ out,
      stdout m' = stdout m ++ out
      ∧ length out = (if fmtProvider.ShouldLog p ctx level then 1 else 0).
Proof.
  cbv zeta. unfold fmtProvider.Write.
  destruct (fmtProvider.ShouldLog p ctx level); cbn [negb].
  2: { repeat split; try done. exists []. by rewrite app_nil_r. }
  unfold fmtProvider.serializeFields.
  destruct (decide (size (deref (heap m) fields) = 0));
    cbn [range_map snd fmtProvider.Printf set_stdout set_seeds
         heap stdout stderr now ext];
    repeat split; try done; by eexists [_].
Qed.

End console_more.

(** ** The timestamp *)

Lemma pad2_two_digits (n : nat) :
  n < 100 →
  ∃ a b, pad2 n = String a (String b "") ∧ is_digit a = true ∧ is_digit b = true.
Proof.
  intros Hn.
  assert (Hall : forallb (λ n, match pad2 n with
                               | String a (String b EmptyString) =>
                                   is_digit a && is_digit b
                               | _ => false
                               end) (seq 0 100) = true)
    by (vm_compute; reflexivity).
  rewrite forallb_forall in Hall.
  specialize (Hall n). rewrite in_seq in Hall.
  specialize (Hall ltac:(lia)).
  destruct (pad2 n) as [|a [|b [|? ?]]]; try discriminate.
  apply andb_prop in Hall as [Ha Hb]. eauto.
Qed.

Lemma pad4_four_digits (n : nat) :
  n < 100 * 100 →
  ∃ a b c d, pad4 n = String a (String b (String c (String d "")))
             ∧ is_digit a = true ∧ is_digit b = true
             ∧ is_digit c = true ∧ is_digit d = true.
Proof.
  intros Hn.
  assert (Hall : forallb (λ n, match pad4 n with
                               | String a (String b (String c (String d EmptyString))) =>
                                   is_digit a && is_digit b && is_digit c && is_digit d
                               | _ => false
                               end) (seq 0 (100 * 100)) = true)
    by (vm_compute; reflexivity).
  rewrite forallb_forall in Hall.
  specialize (Hall n). rewrite in_seq in Hall.
  specialize (Hall ltac:(lia)).
  destruct (pad4 n) as [|a [|b [|c [|d [|? ?]]]]]; try discriminate.
  apply andb_prop in Hall as [Hall Hd]. apply andb_prop in Hall as [Hall Hc].
  apply andb_prop in Hall as [Ha Hb]. eauto 10.
Qed.

(** X15.  For a time of the first ten thousand years the timestamp of the
    console line has the fixed shape YYYY-MM-DD HH:MM:SS: nineteen
    characters, digits but for the two dashes, the blank and the two
    colons. *)
Theorem Format_dash_shape (t : Time) :
  year t < 100 * 100 → month t < 100 → day t < 100 →
  hour t < 100 → minute t < 100 → second t < 100 →
  ∃ y1 y2 y3 y4 m1 m2 d1 d2 h1 h2 i1 i2 s1 s2,
    Format_dash t
    = string_of_list_ascii
        [y1; y2; y3; y4; "-"; m1; m2; "-"; d1; d2; " ";
         h1; h2; ":"; i1; i2; ":"; s1; s2]%char
    ∧ forallb is_digit [y1; y2; y3; y4; m1; m2; d1; d2; h1; h2; i1; i2; s1; s2]
      = true
    ∧ String.length (Format_dash t) = 19.
Proof.
  intros Hy Hmo Hd Hh Hmi Hs.
  destruct (pad4_four_digits _ Hy) as (y1 & y2 & y3 & y4 & Ey & ? & ? & ? & ?).
  destruct (pad2_two_digits _ Hmo) as (m1 & m2 & Emo & ? & ?).
  destruct (pad2_two_digits _ Hd) as (d1 & d2 & Ed & ? & ?).
  destruct (pad2_two_digits _ Hh) as (h1 & h2 & Eh & ? & ?).
  destruct (pad2_two_digits _ Hmi) as (i1 & i2 & Emi & ? & ?).
  destruct (pad2_two_digits _ Hs) as (s1 & s2 & Es & ? & ?).
  exists y1, y2, y3, y4, m1, m2, d1, d2, h1, h2, i1, i2, s1, s2.
  unfold Format_dash. rewrite Ey, Emo, Ed, Eh, Emi, Es.
  split; [reflexivity|]. split; [|reflexivity].
  cbn [forallb]. repeat (apply andb_true_intro; split; [done|]). done.
Qed.

(** ** The further statements at sample inputs *)

Section more_at_samples.
#[local] Existing Instance latin1_only.

(** A context whose trace_id is the number 7: the fields are copied as
    they are. *)
Lemma ExtractFieldsFromContext_without_trace_id_witness :
  valid (heap store_misc) (Some 1)
  ∧ (∀ traceID, ctx_Value ctx_int "trace_id" ≠ Some (VString traceID))
  ∧ ∃ r m',
      fieldsHandler.ExtractFieldsFromContext "trace_id" (Some ctx_int) (Some 1) store_misc
      = (Some r, m')
      ∧ Some r ≠ Some 1
      ∧ deref (heap m') (Some r) = {[ "user" := VString "bob" ]}.
Proof.
  assert (Hv : valid (heap store_misc) (Some 1)) by (simpl; lia).
  assert (Hno : ∀ traceID, ctx_Value ctx_int "trace_id" ≠ Some (VString traceID)).
  { intros traceID H. vm_compute in H. discriminate H. }
  split; [exact Hv|]. split; [exact Hno|].
  destruct (ExtractFieldsFromContext_without_trace_id "trace_id" ctx_int (Some 1)
              store_misc Hv Hno)
    as (r & m' & Hrun & _ & Hne & Hres & _).
  exists r, m'. split; [exact Hrun|]. split; [exact Hne|].
  rewrite Hres. reflexivity.
Defined.

Lemma MergeFields_nil_side_witness :
  valid (heap store_ab) (Some 0)
  ∧ ∃ r m1 m2,
      fieldsHandler.MergeFields None (Some 0) store_ab = (Some r, m1)
      ∧ fieldsHandler.MergeFields (Some 0) None store_ab = (Some r, m2)
      ∧ deref (heap m1) (Some r) = {[ "a" := VInt 1; "b" := VInt 2 ]}
      ∧ deref (heap m2) (Some r) = {[ "a" := VInt 1; "b" := VInt 2 ]}.
Proof.
  assert (Hv : valid (heap store_ab) (Some 0)) by (simpl; lia).
  split; [exact Hv|].
  destruct (MergeFields_nil_side (Some 0) store_ab Hv)
    as (r & m1 & m2 & Hrun1 & Hrun2 & H1 & H2 & _).
  exists r, m1, m2. split; [exact Hrun1|]. split; [exact Hrun2|].
  split; [rewrite H1|rewrite H2]; reflexivity.
Defined.

Lemma MergeFields_assoc_idemp_witness :
  valid (heap store_misc) (Some 0) ∧ valid (heap store_misc) (Some 1)
  ∧ valid (heap store_misc) (Some 2)
  ∧ ∃ ab m1 abc m2 bc m3 abc' m4,
      fieldsHandler.MergeFields (Some 0) (Some 1) store_misc = (ab, m1)
      ∧ fieldsHandler.MergeFields ab (Some 2) m1 = (abc, m2)
      ∧ fieldsHandler.MergeFields (Some 1) (Some 2) store_misc = (bc, m3)
      ∧ fieldsHandler.MergeFields (Some 0) bc m3 = (abc', m4)
      ∧ deref (heap m2) abc = deref (heap m4) abc'.
Proof.
  assert (H0 : valid (heap store_misc) (Some 0)) by (simpl; lia).
  assert (H1 : valid (heap store_misc) (Some 1)) by (simpl; lia).
  assert (H2 : valid (heap store_misc) (Some 2)) by (simpl; lia).
  split; [exact H0|]. split; [exact H1|]. split; [exact H2|].
  destruct (MergeFields_assoc_idemp (Some 0) (Some 1) (Some 2) store_misc H0 H1 H2)
    as (ab & m1 & abc & m2 & bc & m3 & abc' & m4 & aa & m5
        & Hr1 & Hr2 & Hr3 & Hr4 & Heq & _).
  exists ab, m1, abc, m2, bc, m3, abc', m4. by repeat split.
Defined.

(** [FatalErrWithFields] with a nil error, on three providers. *)
Lemma nil_error_panics_before_dispatch_witness :
  ¬ err_given (call_FatalErrWithFields None (Some 1) "boom" [])
  ∧ invoke plain_Sprintf three_stubs None
      (call_FatalErrWithFields None (Some 1) "boom" []) (mkProc store_misc [] 0)
    = Panicked "runtime error: invalid memory address or nil pointer dereference"
               (mkProc store_misc [] 0).
Proof.
  assert (Hnil : ¬ err_given (call_FatalErrWithFields None (Some 1) "boom" []))
    by (intros H; by apply H).
  split; [exact Hnil|].
  exact (proj1 (proj2 (nil_error_panics_before_dispatch plain_Sprintf three_stubs None
                         (call_FatalErrWithFields None (Some 1) "boom" [])
                         (mkProc store_misc [] 0) Hnil))).
Defined.


(** Explicit fields {error: old, a: 1}, the error [timeout] and a context
    with trace id T. *)
Lemma record_entries_precedence_witness :
  fieldsHandler console_logger = NewFieldsHandler "trace_id"
  ∧ err_given (call_ErrorErrWithFields (Some "timeout") (Some 2) "save failed" [])
  ∧ call_fields_valid (heap store_misc)
      (call_ErrorErrWithFields (Some "timeout") (Some 2) "save failed" [])
  ∧ ∃ s0 fields allFields m0,
      ExtractFieldsFromContext (fieldsHandler console_logger) (Some ctx_T) fields
        (mach s0) = (allFields, m0)
      ∧ deref (heap m0) allFields
        = {[ "trace_id" := VString "T"; "error" := VString "timeout";
             "a" := VInt 1 ]}
      ∧ heap m0 !! 2 = Some {[ "error" := VString "old"; "a" := VInt 1 ]}.
Proof.
  assert (He : err_given
                 (call_ErrorErrWithFields (Some "timeout") (Some 2) "save failed" []))
    by discriminate.
  assert (Hv : call_fields_valid (heap store_misc)
                 (call_ErrorErrWithFields (Some "timeout") (Some 2) "save failed" []))
    by (unfold call_fields_valid; simpl; lia).
  split; [reflexivity|]. split; [exact He|]. split; [exact Hv|].
  destruct (record_entries_precedence plain_Sprintf "trace_id" console_logger
              (Some ctx_T)
              (call_ErrorErrWithFields (Some "timeout") (Some 2) "save failed" [])
              (mkProc store_misc [] 0) eq_refl He Hv)
    as (s0 & fields & allFields & m0 & _ & _ & Hex & Hd & Hold).
  exists s0, fields, allFields, m0. split; [exact Hex|].
  split; [rewrite Hd; vm_compute; reflexivity|].
  rewrite Hold by (simpl; lia). reflexivity.
Defined.

Lemma providers_share_fields_value_witness :
  fieldsHandler three_stubs = NewFieldsHandler "trace_id"
  ∧ ∃ s' tr,
      Logger.writeLog three_stubs None LevelInfo "hello" (Some 1)
        (mkProc store_misc [] 0) = Returned tt s'
      ∧ calls s' = tr
      ∧ Forall (λ call,
                  match call with
                  | CallWrite _ _ _ _ given _ => given = Some 1
                  | CallShouldLog _ _ _ _ => True
                  end) tr.
Proof.
  split; [reflexivity|].
  destruct (providers_share_fields_value "trace_id" three_stubs None LevelInfo
              "hello" (Some 1) (mkProc store_misc [] 0) eq_refl)
    as (s' & tr & Hrun & Hc & Hall).
  exists s', tr. split; [exact Hrun|]. split; [exact Hc|]. exact Hall.
Defined.

(** A console logger at Error and an Info record. *)
Lemma refused_record_is_free_witness :
  fieldsHandler (NewLoggerDefault (Ext:=unit) (console_at LevelError)
                   (NewFieldsHandler "trace_id")) = NewFieldsHandler "trace_id"
  ∧ call_err (call_Info "hello" []) = None
  ∧ call_fatal (call_Info "hello" []) = false
  ∧ (∀ p m, p ∈ providers (NewLoggerDefault (Ext:=unit) (console_at LevelError)
                             (NewFieldsHandler "trace_id")) →
            ShouldLog p None (call_level (call_Info "hello" [])) m = (false, m))
  ∧ ∃ s',
      invoke plain_Sprintf
        (NewLoggerDefault (console_at LevelError) (NewFieldsHandler "trace_id"))
        None (call_Info "hello" []) (mkProc boot [] 0)
      = Returned tt s'
      ∧ mach s' = boot.
Proof.
  assert (Hrefuse : ∀ p m,
            p ∈ providers (NewLoggerDefault (Ext:=unit) (console_at LevelError)
                             (NewFieldsHandler "trace_id")) →
            ShouldLog p None (call_level (call_Info "hello" [])) m = (false, m)).
  { intros p m Hp. apply list_elem_of_singleton in Hp. subst p. reflexivity. }
  split; [reflexivity|]. split; [reflexivity|]. split; [reflexivity|].
  split; [exact Hrefuse|].
  destruct (refused_record_is_free plain_Sprintf "trace_id"
              (NewLoggerDefault (console_at LevelError) (NewFieldsHandler "trace_id"))
              (call_Info "hello" []) (mkProc boot [] 0)
              eq_refl eq_refl eq_refl Hrefuse)
    as (s' & tr & Hrun & Hm & _).
  exists s'. split; [exact Hrun|exact Hm].
Defined.

(** An Info record with trace id T on the default logger at Debug. *)
Lemma default_logger_console_line_witness :
  call_err (call_Info "hello" []) = None
  ∧ call_fields (call_Info "hello" []) = None
  ∧ call_fatal (call_Info "hello" []) = false
  ∧ ∃ s',
      invoke plain_Sprintf console_logger (Some ctx_T) (call_Info "hello" [])
        (mkProc boot [] 0) = Returned tt s'
      ∧ stdout (mach s')
        = ["[2025-11-29 08:05:00] info " +:+ String dquote "hello"
           +:+ String dquote " {trace_id=" +:+ String dquote "T"
           +:+ String dquote "}" +:+ String newline ""].
Proof.
  split; [reflexivity|]. split; [reflexivity|]. split; [reflexivity|].
  destruct (default_logger_console_line plain_Sprintf "trace_id"
              (console_at LevelDebug) (Some ctx_T) (call_Info "hello" [])
              (mkProc boot [] 0) eq_refl eq_refl eq_refl)
    as (s' & Hrun & Hout & _).
  exists s'. split; [exact Hrun|].
  rewrite Hout. vm_compute. reflexivity.
Defined.

Lemma Format_dash_shape_witness :
  year (now boot) < 100 * 100 ∧ month (now boot) < 100 ∧ day (now boot) < 100
  ∧ hour (now boot) < 100 ∧ minute (now boot) < 100 ∧ second (now boot) < 100
  ∧ String.length (Format_dash (now boot)) = 19.
Proof.
  assert (Hy : year (now boot) < 100 * 100) by (simpl; lia).
  assert (Hmo : month (now boot) < 100) by (simpl; lia).
  assert (Hd : day (now boot) < 100) by (simpl; lia).
  assert (Hh : hour (now boot) < 100) by (simpl; lia).
  assert (Hmi : minute (now boot) < 100) by (simpl; lia).
  assert (Hs : second (now boot) < 100) by (simpl; lia).
  repeat (split; [assumption|]).
  destruct (Format_dash_shape (now boot) Hy Hmo Hd Hh Hmi Hs)
    as (y1 & y2 & y3 & y4 & m1 & m2 & d1 & d2 & h1 & h2 & i1 & i2 & s1 & s2
        & _ & _ & Hlen).
  exact Hlen.
Defined.

End more_at_samples.

(** ** String values on the console line *)

Lemma list_ascii_of_append (s1 s2 : string) :
  list_ascii_of_string (s1 +:+ s2)
  = list_ascii_of_string s1 ++ list_ascii_of_string s2.
Proof.
  induction s1 as [|a s1 IH]; [done|].
  change (String a s1 +:+ s2) with (String a (s1 +:+ s2)).
  simpl. by rewrite IH.
Qed.

Lemma plain_byte_check (ch : ascii) :
  ((32 <=? nat_of_ascii ch) && negb (nat_of_ascii ch =? 127))%nat = true →
  plain_byte ch.
Proof.
  intros H. apply andb_prop in H as [Hlo Hdel].
  apply Nat.leb_le in Hlo. apply negb_true_iff, Nat.eqb_neq in Hdel. done.
Qed.

Lemma hex_digit_plain (n : nat) : plain_byte (hex_digit n).
Proof.
  apply plain_byte_check.
  do 16 (destruct n as [|n]; [reflexivity|]). reflexivity.
Qed.

Lemma char_of_plain (b : Z) :
  (32 ≤ b < 256)%Z → b ≠ 127%Z → plain_byte (char_of b).
Proof.
  intros Hb Hdel. unfold plain_byte, char_of.
  rewrite nat_ascii_embedding by lia. lia.
Qed.

Ltac split_tests :=
  repeat match goal with
         | |- context [(?a <=? ?b)%Z] => destruct (Z.leb_spec a b)
         | |- context [(?a <? ?b)%Z] => destruct (Z.ltb_spec a b)
         | |- context [(?a =? ?b)%Z] => destruct (Z.eqb_spec a b)
         end.

Lemma AppendRune_plain (r : Z) :
  (between 0 127 r = true → (32 ≤ r ≤ 126)%Z) →
  Forall plain_byte (list_ascii_of_string (AppendRune r)).
Proof.
  intros Hascii. unfold AppendRune, ValidRune, encode3, between in *.
  unfold RuneError, MaxRune.
  split_tests; cbn [andb orb negb list_ascii_of_string];
    repeat (apply Forall_cons; split); try apply Forall_nil;
    try (apply char_of_plain; Z.div_mod_to_equations; lia).
  all: try exact I.
  all: specialize (Hascii eq_refl); apply char_of_plain; lia.
Qed.

Section quote_facts.
Context {tables : PrintTables}.

Lemma hex4_plain (r : Z) : Forall plain_byte (list_ascii_of_string (hex4 r)).
Proof. unfold hex4. repeat constructor; apply hex_digit_plain. Qed.

Lemma appendEscapedRune_plain (r : Z) :
  Forall plain_byte (list_ascii_of_string (appendEscapedRune r)).
Proof.
  assert (Hbs : plain_byte "\"%char) by (by apply plain_byte_check).
  assert (Hx : plain_byte "x"%char) by (by apply plain_byte_check).
  assert (Hu : plain_byte "u"%char) by (by apply plain_byte_check).
  assert (HU : plain_byte "U"%char) by (by apply plain_byte_check).
  unfold appendEscapedRune.
  destruct ((r =? 34) || (r =? 92))%Z eqn:Hq.
  { apply orb_prop in Hq as [Hq|Hq]; apply Z.eqb_eq in Hq; subst r;
      repeat constructor; by apply plain_byte_check. }
  destruct (IsPrint r) eqn:Hp.
  { apply AppendRune_plain. intros Hascii.
    unfold IsPrint, between in *.
    revert Hp Hascii. split_tests; cbn [andb orb negb]; intros; try done; lia. }
  repeat (match goal with
          | |- context [if (r =? ?k)%Z then _ else _] =>
              destruct (r =? k)%Z;
              [repeat constructor; by apply plain_byte_check|]
          end).
  destruct ((r <? 32) || (r =? 127))%Z.
  { repeat constructor; try done; apply hex_digit_plain. }
  destruct (negb (ValidRune r)); [|destruct (r <? 65536)%Z];
    rewrite ?list_ascii_of_append;
    repeat (apply Forall_app; split); try apply hex4_plain;
    repeat constructor; done.
Qed.

Lemma quote_loop_plain (fuel : nat) (s : string) :
  Forall plain_byte (list_ascii_of_string (quote_loop fuel s)).
Proof.
  revert s. induction fuel as [|fuel IH]; intros s; [constructor|].
  destruct s as [|c0 rest]; [constructor|].
  cbn [quote_loop].
  destruct (if (byte_of c0 <? 128)%Z then (byte_of c0, 1%nat)
            else DecodeRuneInString (String c0 rest)) as [r width].
  destruct ((width =? 1)%nat && (r =? RuneError)%Z)%bool;
    rewrite list_ascii_of_append; apply Forall_app; (split; [|apply IH]).
  - cbn [list_ascii_of_string].
    repeat (apply Forall_cons; split); try apply hex_digit_plain;
      try (by apply plain_byte_check). by apply Forall_nil.
  - apply appendEscapedRune_plain.
Qed.

Lemma string_drop_length (n : nat) (s : string) :
  String.length (string_drop n s) = (String.length s - n)%nat.
Proof.
  revert s. induction n as [|n IH]; intros [|c s]; simpl; try done; lia.
Qed.

Lemma DecodeRuneInString_width (c0 : ascii) (rest : string) :
  (1 ≤ (DecodeRuneInString (String c0 rest)).2)%nat.
Proof.
  unfold DecodeRuneInString.
  repeat case_match; simpl; lia.
Qed.

(** The loop does not run out of turns: more than [len(s)] change nothing. *)
Lemma quote_loop_enough (fuel1 fuel2 : nat) (s : string) :
  (String.length s ≤ fuel1)%nat → (String.length s ≤ fuel2)%nat →
  quote_loop fuel1 s = quote_loop fuel2 s.
Proof.
  revert fuel2 s. induction fuel1 as [|fuel1 IH]; intros fuel2 s H1 H2.
  { destruct s; [|simpl in H1; lia]. by destruct fuel2. }
  destruct s as [|c0 rest]; [by destruct fuel2|].
  destruct fuel2 as [|fuel2]; [simpl in H2; lia|].
  cbn [quote_loop].
  pose proof (DecodeRuneInString_width c0 rest) as Hw.
  destruct (byte_of c0 <? 128)%Z.
  - cbn [string_drop]. simpl in H1, H2.
    rewrite (IH fuel2 rest) by lia. done.
  - destruct (DecodeRuneInString (String c0 rest)) as [r width]. simpl in Hw.
    assert (Hlen : (String.length (string_drop width (String c0 rest))
                    ≤ String.length rest)%nat).
    { rewrite string_drop_length. simpl. lia. }
    simpl in H1, H2.
    rewrite (IH fuel2 (string_drop width (String c0 rest))) by lia. done.
Qed.

(** X16.  A string value reaches the console line through [%q]: whatever
    bytes the value holds, valid UTF-8 or not, its rendering after the
    equals sign has no ASCII control character in it (no byte below 0x20,
    so no newline, and no 0x7f): a field value cannot break the line. *)
Theorem string_value_has_no_control_character (k text : string) :
  ∃ body,
    fmtProvider.pair_text (k, VString text) = k +:+ "=" +:+ body
    ∧ Forall (λ ch, (32 ≤ nat_of_ascii ch)%nat ∧ nat_of_ascii ch ≠ 127%nat)
             (list_ascii_of_string body).
Proof.
  exists (strconv_Quote text). split; [done|].
  change (Forall plain_byte (list_ascii_of_string (strconv_Quote text))).
  unfold strconv_Quote, escape.
  change (String dquote (quote_loop (String.length text) text +:+ String dquote ""))
    with (String dquote "" +:+ (quote_loop (String.length text) text
                                +:+ String dquote "")).
  rewrite !list_ascii_of_append.
  assert (Hq : Forall plain_byte (list_ascii_of_string (String dquote ""))).
  { apply Forall_cons. split; [by apply plain_byte_check|constructor]. }
  apply Forall_app. split; [exact Hq|].
  apply Forall_app. split; [apply quote_loop_plain|exact Hq].
Qed.

End quote_facts.
